(** * Heading / orientation engine of ps-intake: OrientationManager

    Shallow embedding of the final [OrientationManager] class (methods
    [handleOrientationAbsolute], [handleOrientation], [getCardinalDirection],
    [smoothAzimuth], [updateDisplay], [updateMapMarker]) together with the two
    listeners that [startTracking] registers.

    Numbers.  JavaScript numbers are IEEE doubles; here a number that comes
    from a sensor is an exact rational ([Q]) and a number produced by
    [Math.round] is an integer ([Z]).  Everything the engine stores (azimuth,
    pitch, smoothed azimuth, buffer entries) has gone through [Math.round], so
    the stored state is integer valued in the source as well.  Every concrete
    evaluation below uses integer or half-integer inputs, on which the double
    arithmetic of the source is exact. *)

From Stdlib Require Import ZArith QArith Qround Lia Lqa List Bool String DecimalString.
Import ListNotations.

Local Open Scope Z_scope.

(** ** JavaScript arithmetic on exact rationals *)

Module JS.

(** Truncation toward zero, the integer quotient that [%] is built on. *)
Definition trunc (x : Q) : Z := Z.quot (Qnum x) (Zpos (Qden x)).

(** [x % m]: the remainder takes the sign of the dividend. *)
Definition rem (x m : Q) : Q := (x - m * inject_Z (trunc (x / m)))%Q.

(** [Math.round(x)]: nearest integer, ties toward +infinity. *)
Definition Math_round (x : Q) : Z := Qfloor (x + (1 # 2))%Q.

(** [ToNumber] on a value that is a number or [null]: [null] converts to 0,
    which is what a relational operator such as [this.pitch > 45] sees. *)
Definition toNumber (v : option Z) : Z :=
  match v with Some n => n | None => 0 end.

(** [a.reduce((x, y) => x + y, 0)] *)
Definition sum (l : list Z) : Z := fold_left Z.add l 0.

End JS.

(** ** Data model *)

(** The fields of a [DeviceOrientationEvent] that the engine reads.  [None]
    stands for [null] in [alpha], [beta] and [gamma], and for [undefined]
    (the property is absent, as on every platform but iOS) in
    [webkitCompassHeading]. *)
Record DeviceOrientationEvent : Type := {
  alpha : option Q;
  beta : option Q;
  gamma : option Q;
  webkitCompassHeading : option Q
}.

(** The fields of [this] that the constructor declares. *)
Record OrientationManager : Type := {
  azimuth : option Z;
  pitch : option Z;
  isTracking : bool;
  hasReceivedData : bool;
  azimuthBuffer : list Z;
  bufferSize : Z;
  smoothedAzimuth : option Z
}.

Definition set_azimuth (this : OrientationManager) (v : option Z) :=
  {| azimuth := v; pitch := pitch this; isTracking := isTracking this;
     hasReceivedData := hasReceivedData this;
     azimuthBuffer := azimuthBuffer this; bufferSize := bufferSize this;
     smoothedAzimuth := smoothedAzimuth this |}.

Definition set_pitch (this : OrientationManager) (v : option Z) :=
  {| azimuth := azimuth this; pitch := v; isTracking := isTracking this;
     hasReceivedData := hasReceivedData this;
     azimuthBuffer := azimuthBuffer this; bufferSize := bufferSize this;
     smoothedAzimuth := smoothedAzimuth this |}.

Definition set_hasReceivedData (this : OrientationManager) (v : bool) :=
  {| azimuth := azimuth this; pitch := pitch this;
     isTracking := isTracking this; hasReceivedData := v;
     azimuthBuffer := azimuthBuffer this; bufferSize := bufferSize this;
     smoothedAzimuth := smoothedAzimuth this |}.

Definition set_azimuthBuffer (this : OrientationManager) (v : list Z) :=
  {| azimuth := azimuth this; pitch := pitch this;
     isTracking := isTracking this; hasReceivedData := hasReceivedData this;
     azimuthBuffer := v; bufferSize := bufferSize this;
     smoothedAzimuth := smoothedAzimuth this |}.

Definition set_smoothedAzimuth (this : OrientationManager) (v : option Z) :=
  {| azimuth := azimuth this; pitch := pitch this;
     isTracking := isTracking this; hasReceivedData := hasReceivedData this;
     azimuthBuffer := azimuthBuffer this; bufferSize := bufferSize this;
     smoothedAzimuth := v |}.

(** The manager once [new OrientationManager()] has returned: the constructor
    fills the fields and calls [init], whose [startTracking] registers the two
    listeners and raises [isTracking]. *)
Definition new_OrientationManager : OrientationManager :=
  {| azimuth := None; pitch := None; isTracking := true;
     hasReceivedData := false; azimuthBuffer := []; bufferSize := 5;
     smoothedAzimuth := None |}.

(** ** Operations *)

Definition directions : list string :=
  ["N"; "NNE"; "NE"; "ENE"; "E"; "ESE"; "SE"; "SSE";
   "S"; "SSW"; "SW"; "WSW"; "W"; "WNW"; "NW"; "NNW"]%string.

(** [directions[index]] for an integer index; [None] is [undefined]. *)
Definition directions_at (index : Z) : option string :=
  if index <? 0 then None else nth_error directions (Z.to_nat index).

(** [getCardinalDirection(azimuth)] *)
Definition getCardinalDirection (azimuth : Q) : option string :=
  let index := Z.rem (JS.Math_round (azimuth / (45 # 2))%Q) 16 in
  directions_at index.

(** [smoothAzimuth(newAzimuth)]: returns the rounded average and the manager
    with its buffer updated. *)
Definition smoothAzimuth (this : OrientationManager) (newAzimuth : Z)
  : Z * OrientationManager :=
  let this := set_azimuthBuffer this (azimuthBuffer this ++ [newAzimuth]) in
  let this :=
    if bufferSize this <? Z.of_nat (List.length (azimuthBuffer this))
    then set_azimuthBuffer this (tl (azimuthBuffer this))
    else this in
  let hasWraparound :=
    existsb (fun v => v <? 90) (azimuthBuffer this) &&
    existsb (fun v => 270 <? v) (azimuthBuffer this) in
  let average :=
    if hasWraparound then
      let normalized :=
        map (fun v => if v <? 180 then v + 360 else v) (azimuthBuffer this) in
      let average :=
        (inject_Z (JS.sum normalized)
         / inject_Z (Z.of_nat (List.length normalized)))%Q in
      JS.rem average (360 # 1)
    else
      (inject_Z (JS.sum (azimuthBuffer this))
       / inject_Z (Z.of_nat (List.length (azimuthBuffer this))))%Q in
  (JS.Math_round average, this).

(** [handleOrientationAbsolute(event)], the updates of [this]; the two calls
    that end the method, [updateDisplay] and [updateMapMarker], write to the
    page only and are embedded in [Page] below. *)
Definition handleOrientationAbsolute (this : OrientationManager)
    (event : DeviceOrientationEvent) : OrientationManager :=
  let this :=
    if negb (hasReceivedData this) then set_hasReceivedData this true
    else this in
  let rawAlpha := alpha event in
  let rawBeta := beta event in
  let this :=
    match rawBeta with
    | Some b =>
        let this := set_pitch this (Some (JS.Math_round (b - (90 # 1))%Q)) in
        let this :=
          if 90 <? JS.toNumber (pitch this) then set_pitch this (Some 90)
          else this in
        if JS.toNumber (pitch this) <? -90 then set_pitch this (Some (-90))
        else this
    | None => this
    end in
  match rawAlpha, rawBeta with
  | Some a, Some _ =>
      let azimuth := a in
      let azimuth :=
        if 45 <? JS.toNumber (pitch this)
        then JS.rem (a + (180 # 1))%Q (360 # 1)
        else azimuth in
      let this := set_azimuth this (Some (JS.Math_round azimuth)) in
      let '(smoothed, this) :=
        smoothAzimuth this (JS.Math_round azimuth) in
      set_smoothedAzimuth this (Some smoothed)
  | _, _ => this
  end.

(** [handleOrientation(event)], the updates of [this] (see above for the two
    trailing calls). *)
Definition handleOrientation (this : OrientationManager)
    (event : DeviceOrientationEvent) : OrientationManager :=
  let this :=
    if negb (hasReceivedData this) then set_hasReceivedData this true
    else this in
  let rawBeta := beta event in
  let this :=
    match rawBeta with
    | Some b =>
        let this := set_pitch this (Some (JS.Math_round (b - (90 # 1))%Q)) in
        let this :=
          if 90 <? JS.toNumber (pitch this) then set_pitch this (Some 90)
          else this in
        if JS.toNumber (pitch this) <? -90 then set_pitch this (Some (-90))
        else this
    | None => this
    end in
  match webkitCompassHeading event with
  | Some heading =>
      let azimuth := heading in
      let azimuth :=
        if 45 <? JS.toNumber (pitch this)
        then JS.rem (azimuth + (180 # 1))%Q (360 # 1)
        else azimuth in
      let this := set_azimuth this (Some (JS.Math_round azimuth)) in
      let '(smoothed, this) :=
        smoothAzimuth this (JS.Math_round azimuth) in
      set_smoothedAzimuth this (Some smoothed)
  | None =>
      match alpha event with
      | Some a =>
          let azimuth := ((360 # 1) - a)%Q in
          let azimuth :=
            if 45 <? JS.toNumber (pitch this)
            then JS.rem (azimuth + (180 # 1))%Q (360 # 1)
            else azimuth in
          let this := set_azimuth this (Some (JS.Math_round azimuth)) in
          let '(smoothed, this) :=
            smoothAzimuth this (JS.Math_round azimuth) in
          set_smoothedAzimuth this (Some smoothed)
      | None => this
      end
  end.

(** The two listeners of [startTracking]: each raises [hasReceivedData] and
    hands the event to its handler. *)
Inductive listener : Type :=
| deviceorientationabsolute
| deviceorientation.

(** The handler a listener calls. *)
Definition handler (l : listener)
  : OrientationManager -> DeviceOrientationEvent -> OrientationManager :=
  match l with
  | deviceorientationabsolute => handleOrientationAbsolute
  | deviceorientation => handleOrientation
  end.

Definition dispatch (this : OrientationManager) (l : listener)
    (event : DeviceOrientationEvent) : OrientationManager :=
  let this := set_hasReceivedData this true in
  handler l this event.

(** The manager after a sequence of events, delivered in arrival order to a
    freshly constructed manager. *)
Definition run (events : list (listener * DeviceOrientationEvent))
  : OrientationManager :=
  fold_left (fun this le => dispatch this (fst le) (snd le))
            events new_OrientationManager.

(** Raw azimuths fed one after the other into [smoothAzimuth]; the result is
    the last value returned (if any) and the manager. *)
Definition feed (this : OrientationManager) (raws : list Z)
  : option Z * OrientationManager :=
  fold_left (fun acc v =>
               let '(smoothed, this) := smoothAzimuth (snd acc) v in
               (Some smoothed, this))
            raws (None, this).

(** ** The page: display and map marker

    [updateDisplay] and [updateMapMarker] end both handlers.  They read
    [this] and write to the document and to the map collaborator, and they are
    the only places on the ingestion path where a JavaScript exception could
    arise: an assignment to a property of [null], a method call on
    [undefined], or the call of a method the object does not have, throws a
    [TypeError].  A completion records whether a call returned or threw.  The
    handlers have updated [this] before they reach these two calls, and an
    exception that leaves a listener does not unregister it: the manager after
    an event is the one the state functions above compute, whether or not the
    page calls return. *)

Module Page.

Inductive completion (A : Type) : Type :=
| Normal (a : A)
| Throw (error : string).
Arguments Normal {A} a.
Arguments Throw {A} error.

Definition bind {A B : Type} (c : completion A) (k : A -> completion B)
  : completion B :=
  match c with
  | Normal a => k a
  | Throw e => Throw e
  end.

(** A DOM element, as far as the engine touches it. *)
Record Element : Type := { textContent : string }.

(** [el.textContent = v]; [el] is what [document.getElementById] returned,
    [None] being [null]. *)
Definition set_textContent (el : option Element) (v : string)
  : completion (option Element) :=
  match el with
  | Some _ => Normal (Some {| textContent := v |})
  | None => Throw "TypeError"
  end.

(** A value inside a template literal. *)
Definition show_number (n : Z) : string :=
  NilZero.string_of_int (Z.to_int n).

Definition show_string (s : option string) : string :=
  match s with Some v => v | None => "undefined" end.

Definition truthy {A : Type} (o : option A) : bool :=
  match o with Some _ => true | None => false end.

Section Collaborator.

(** The map manager: an instance of the [MapManager] class of the map file,
    whatever its fields hold. *)
Variable MapManager : Type.

(** What the handlers reach through [document] and [window]. *)
Record Window : Type := {
  azimuthElement : option Element;   (* getElementById('azimuth') *)
  pitchElement : option Element;     (* getElementById('pitch') *)
  mapManager : option MapManager     (* window.mapManager *)
}.

(** [m.updateUserLocationRotation(deg)].  The [MapManager] class declares
    [init], [onMapClick], [updateUserLocation], [centerMap], [addMarker],
    [addCustomPin], [removeMarker] and [getMap], in both of its versions, and
    no [updateUserLocationRotation]: on a map manager the property lookup
    gives [undefined], and calling [undefined] throws a [TypeError]; so does
    the lookup on a missing map manager. *)
Definition call_updateUserLocationRotation (m : option MapManager)
    (deg : Z) : completion (option MapManager) :=
  match m with
  | Some _ => Throw "TypeError"
  | None => Throw "TypeError"
  end.

(** [updateDisplay()] *)
Definition updateDisplay (this : OrientationManager) (w : Window)
  : completion Window :=
  let azimuthElement := azimuthElement w in
  let pitchElement := pitchElement w in
  bind
    (match azimuth this with
     | Some az =>
         if truthy azimuthElement then
           let direction := getCardinalDirection (inject_Z az) in
           set_textContent azimuthElement
             ("Azimuth: " ++ show_number az ++ "° ("
                ++ show_string direction ++ ")")
         else Normal azimuthElement
     | None => Normal azimuthElement
     end)
    (fun azimuthElement =>
       bind
         (match pitch this with
          | Some p =>
              if truthy pitchElement then
                set_textContent pitchElement
                  ("Pitch: " ++ show_number p ++ "°")
              else Normal pitchElement
          | None => Normal pitchElement
          end)
         (fun pitchElement =>
            Normal {| azimuthElement := azimuthElement;
                      pitchElement := pitchElement;
                      mapManager := mapManager w |})).

(** [updateMapMarker()] *)
Definition updateMapMarker (this : OrientationManager) (w : Window)
  : completion Window :=
  if truthy (mapManager w) then
    match smoothedAzimuth this with
    | Some smoothed =>
        bind (call_updateUserLocationRotation (mapManager w) smoothed)
             (fun m =>
                Normal {| azimuthElement := azimuthElement w;
                          pitchElement := pitchElement w;
                          mapManager := m |})
    | None => Normal w
    end
  else Normal w.

(** A whole handler: the updates of [this], then the two page calls. *)
Definition handleOrientationAbsolute_call (this : OrientationManager)
    (w : Window) (event : DeviceOrientationEvent)
  : completion (OrientationManager * Window) :=
  let this := handleOrientationAbsolute this event in
  bind (updateDisplay this w) (fun w =>
  bind (updateMapMarker this w) (fun w =>
  Normal (this, w))).

Definition handleOrientation_call (this : OrientationManager)
    (w : Window) (event : DeviceOrientationEvent)
  : completion (OrientationManager * Window) :=
  let this := handleOrientation this event in
  bind (updateDisplay this w) (fun w =>
  bind (updateMapMarker this w) (fun w =>
  Normal (this, w))).

(** A listener of [startTracking] with its page effects. *)
Definition listener_call (this : OrientationManager) (w : Window)
    (l : listener) (event : DeviceOrientationEvent)
  : completion (OrientationManager * Window) :=
  let this := set_hasReceivedData this true in
  match l with
  | deviceorientationabsolute => handleOrientationAbsolute_call this w event
  | deviceorientation => handleOrientation_call this w event
  end.

End Collaborator.

End Page.

(** ** The smoothing step in the words of the specification

    These definitions follow the specification's description of the circular
    moving average; they are compared with [smoothAzimuth] below. *)

Module Spec.

(** Capacity of the sample buffer. *)
Definition N : nat := 5.

(** The last [n] elements of a sequence: what is left when the oldest are
    evicted first. *)
Definition last_n (n : nat) (l : list Z) : list Z :=
  skipn (List.length l - n) l.

(** The readings straddle the 0/360 seam. *)
Definition straddles (buffer : list Z) : Prop :=
  (exists v, In v buffer /\ v < 90) /\ (exists v, In v buffer /\ 270 < v).

(** [v] becomes [v + 360] when [v < 180]. *)
Definition normalize (v : Z) : Z :=
  if Z_lt_dec v 180 then v + 360 else v.

(** Arithmetic mean. *)
Definition mean (l : list Z) : Q :=
  (inject_Z (fold_right Z.add 0%Z l) / inject_Z (Z.of_nat (List.length l)))%Q.

(** [y] is [x] reduced modulo 360. *)
Definition reduced_mod_360 (x y : Q) : Prop :=
  (0 <= y /\ y < 360 # 1)%Q /\
  exists k : Z, (x == y + (360 # 1) * inject_Z k)%Q.

(** [n] is [x] rounded to the nearest integer (a tie goes up). *)
Definition nearest_integer (x : Q) (n : Z) : Prop :=
  (inject_Z n - (1 # 2) <= x /\ x < inject_Z n + (1 # 2))%Q.

(** The smoothed azimuth of a buffer. *)
Inductive smoothed (buffer : list Z) (r : Z) : Prop :=
| smoothed_plain :
    ~ straddles buffer ->
    nearest_integer (mean buffer) r ->
    smoothed buffer r
| smoothed_seam (y : Q) :
    straddles buffer ->
    reduced_mod_360 (mean (map normalize buffer)) y ->
    nearest_integer y r ->
    smoothed buffer r.

(** An angle of the sample as the data model bounds it. *)
Definition within (lo hi : Q) (x : option Q) : Prop :=
  match x with
  | Some v => (lo <= v /\ v <= hi)%Q
  | None => True
  end.

(** A valid [OrientationSample]: [alpha] and the platform compass heading in
    0..360, [beta] in -180..180, [gamma] in -90..90. *)
Definition valid_sample (e : DeviceOrientationEvent) : Prop :=
  within (0 # 1) (360 # 1) (alpha e) /\
  within (- (180 # 1)) (180 # 1) (beta e) /\
  within (- (90 # 1)) (90 # 1) (gamma e) /\
  within (0 # 1) (360 # 1) (webkitCompassHeading e).

End Spec.

(** ** The handlers taken apart

    The pieces below are the sub-expressions of the two handlers and of
    [smoothAzimuth], named so that the properties can speak about them; the
    lemmas of the section "Field by field" prove that the handlers are made of
    exactly these pieces. *)

(** The two clamping statements that follow [Math.round(rawBeta - 90)]. *)
Definition clamp_pitch (p : Z) : Z :=
  if 90 <? p then 90 else if p <? -90 then -90 else p.

(** [this.pitch] once the pitch block of a handler has run. *)
Definition pitch_after (old : option Z) (rawBeta : option Q) : option Z :=
  match rawBeta with
  | Some b => Some (clamp_pitch (JS.Math_round (b - (90 # 1))%Q))
  | None => old
  end.

(** The pitch compensation applied to an azimuth candidate. *)
Definition compensate (pitch : option Z) (candidate : Q) : Q :=
  if 45 <? JS.toNumber pitch
  then JS.rem (candidate + (180 # 1))%Q (360 # 1)
  else candidate.

(** The azimuth candidate of a sample, before compensation, on each path;
    [None] when the handler skips the azimuth update. *)
Definition candidate_absolute (event : DeviceOrientationEvent) : option Q :=
  match alpha event, beta event with
  | Some a, Some _ => Some a
  | _, _ => None
  end.

Definition candidate_fallback (event : DeviceOrientationEvent) : option Q :=
  match webkitCompassHeading event with
  | Some heading => Some heading
  | None =>
      match alpha event with
      | Some a => Some ((360 # 1) - a)%Q
      | None => None
      end
  end.

Definition candidate (l : listener) (event : DeviceOrientationEvent)
  : option Q :=
  match l with
  | deviceorientationabsolute => candidate_absolute event
  | deviceorientation => candidate_fallback event
  end.

(** The buffer after the push and the conditional shift. *)
Definition pushed (size : Z) (buffer : list Z) (newAzimuth : Z) : list Z :=
  let b := buffer ++ [newAzimuth] in
  if size <? Z.of_nat (List.length b) then tl b else b.

(** The average [smoothAzimuth] takes of a buffer, before the final
    [Math.round]. *)
Definition average (buffer : list Z) : Q :=
  if existsb (fun v => v <? 90) buffer && existsb (fun v => 270 <? v) buffer
  then
    let normalized := map (fun v => if v <? 180 then v + 360 else v) buffer in
    JS.rem (inject_Z (JS.sum normalized)
            / inject_Z (Z.of_nat (List.length normalized)))%Q (360 # 1)
  else
    (inject_Z (JS.sum buffer) / inject_Z (Z.of_nat (List.length buffer)))%Q.

(** [this] at the end of a handler, given the pitch its pitch block left and
    the azimuth candidate of the sample. *)
Definition ingested (this : OrientationManager) (p : option Z)
    (c : option Q) : OrientationManager :=
  match c with
  | Some c =>
      let raw := JS.Math_round (compensate p c) in
      let buffer := pushed (bufferSize this) (azimuthBuffer this) raw in
      {| azimuth := Some raw; pitch := p; isTracking := isTracking this;
         hasReceivedData := true; azimuthBuffer := buffer;
         bufferSize := bufferSize this;
         smoothedAzimuth := Some (JS.Math_round (average buffer)) |}
  | None =>
      {| azimuth := azimuth this; pitch := p; isTracking := isTracking this;
         hasReceivedData := true; azimuthBuffer := azimuthBuffer this;
         bufferSize := bufferSize this;
         smoothedAzimuth := smoothedAzimuth this |}
  end.

(** An integer in the closed range of a compass reading. *)
Definition in_0_360 (v : Z) : Prop := 0 <= v <= 360.

Definition opt_in (lo hi : Z) (v : option Z) : Prop :=
  match v with
  | Some n => lo <= n <= hi
  | None => True
  end.

(** A sample with the given [alpha], [beta] and compass heading. *)
Definition sample (a b h : option Q) : DeviceOrientationEvent :=
  {| alpha := a; beta := b; gamma := None; webkitCompassHeading := h |}.

(** What every reachable manager satisfies, whatever the samples were. *)
Record shape (this : OrientationManager) : Prop := {
  shape_size : bufferSize this = 5;
  shape_length : (List.length (azimuthBuffer this) <= 5)%nat;
  shape_pitch : opt_in (-90) 90 (pitch this)
}.

(** What valid samples add: every stored compass value is within 0..360, both
    ends included. *)
Record ranges (this : OrientationManager) : Prop := {
  ranges_buffer : Forall in_0_360 (azimuthBuffer this);
  ranges_azimuth : opt_in 0 360 (azimuth this);
  ranges_smoothed : opt_in 0 360 (smoothedAzimuth this)
}.

(** ** Tracking: the listeners of [startTracking]

    [window] keeps the listeners in registration order.  Every call of
    [addEventListener] in [startTracking] passes a fresh arrow function, so a
    second registration adds a second listener. *)

Definition set_isTracking (this : OrientationManager) (v : bool) :=
  {| azimuth := azimuth this; pitch := pitch this; isTracking := v;
     hasReceivedData := hasReceivedData this;
     azimuthBuffer := azimuthBuffer this; bufferSize := bufferSize this;
     smoothedAzimuth := smoothedAzimuth this |}.

(** The manager together with the orientation listeners it has registered on
    [window]. *)
Record Tracker : Type := {
  manager : OrientationManager;
  registered : list listener
}.

(** [startTracking()]: the early return while tracking, else the two
    registrations and the flag (the diagnostic timer only logs). *)
Definition startTracking (t : Tracker) : Tracker :=
  if isTracking (manager t) then t
  else
    {| manager := set_isTracking (manager t) true;
       registered :=
         registered t ++ [deviceorientationabsolute; deviceorientation] |}.

(** [new OrientationManager()]: the field initialisers, then [init], of which
    [addPermissionButton] and [checkSensorSupport] touch the page only and
    [startTracking] is the last call. *)
Definition constructor : Tracker :=
  startTracking
    {| manager :=
         {| azimuth := None; pitch := None; isTracking := false;
            hasReceivedData := false; azimuthBuffer := []; bufferSize := 5;
            smoothedAzimuth := None |};
       registered := [] |}.

(** How a call of [requestPermission] turns out, on a platform that defines
    [DeviceOrientationEvent]: there is no
    [DeviceOrientationEvent.requestPermission] (the [else] branch), or there
    is and the promise resolves to 'granted', resolves to something else, or
    rejects. *)
Inductive permission : Type :=
| NoPermissionAPI
| Granted
| Denied
| Rejected.

(** [requestPermission()], its effect on the tracker: the two successful
    branches lower [isTracking] and call [startTracking]; the others change
    the button and the status line only. *)
Definition requestPermission (t : Tracker) (outcome : permission) : Tracker :=
  match outcome with
  | NoPermissionAPI | Granted =>
      startTracking
        {| manager := set_isTracking (manager t) false;
           registered := registered t |}
  | Denied | Rejected => t
  end.

Definition listener_eqb (a b : listener) : bool :=
  match a, b with
  | deviceorientationabsolute, deviceorientationabsolute => true
  | deviceorientation, deviceorientation => true
  | _, _ => false
  end.

(** The platform fires one event of the given type: every listener registered
    for that type runs, in registration order. *)
Definition fire (t : Tracker) (type : listener)
    (event : DeviceOrientationEvent) : Tracker :=
  {| manager :=
       fold_left
         (fun this l =>
            if listener_eqb l type then dispatch this l event else this)
         (registered t) (manager t);
     registered := registered t |}.

(** What can happen to the tracker between events: a call of
    [startTracking], or a call of [requestPermission] with its outcome. *)
Inductive action : Type :=
| StartTracking
| RequestPermission (outcome : permission).

Definition perform (t : Tracker) (a : action) : Tracker :=
  match a with
  | StartTracking => startTracking t
  | RequestPermission outcome => requestPermission t outcome
  end.

(** The calls of [requestPermission] that reach [startTracking]. *)
Definition regranted (actions : list action) : list action :=
  filter (fun a => match a with
                   | RequestPermission NoPermissionAPI
                   | RequestPermission Granted => true
                   | _ => false
                   end) actions.

(** The [beta] of the latest event of a sequence that has one. *)
Definition latest_beta (events : list (listener * DeviceOrientationEvent))
  : option Q :=
  fold_left (fun acc le => match beta (snd le) with
                           | Some b => Some b
                           | None => acc
                           end) events None.

(** ** The first version of the manager

    The file also holds the manager as it was before smoothing and pitch
    compensation were added: three fields, and handlers that store the rounded
    heading directly. *)

Record OrientationManager_v1 : Type := {
  v1_azimuth : option Z;
  v1_pitch : option Z;
  v1_isTracking : bool
}.

(** The first [handleOrientationAbsolute(event)]. *)
Definition v1_handleOrientationAbsolute (this : OrientationManager_v1)
    (event : DeviceOrientationEvent) : OrientationManager_v1 :=
  let this :=
    match alpha event with
    | Some a =>
        {| v1_azimuth := Some (JS.Math_round a); v1_pitch := v1_pitch this;
           v1_isTracking := v1_isTracking this |}
    | None => this
    end in
  match beta event with
  | Some rawBeta =>
      let p := JS.Math_round (rawBeta - (90 # 1))%Q in
      let p := if 90 <? p then 90 else p in
      let p := if p <? -90 then -90 else p in
      {| v1_azimuth := v1_azimuth this; v1_pitch := Some p;
         v1_isTracking := v1_isTracking this |}
  | None => this
  end.

(** The first [handleOrientation(event)]. *)
Definition v1_handleOrientation (this : OrientationManager_v1)
    (event : DeviceOrientationEvent) : OrientationManager_v1 :=
  let this :=
    match webkitCompassHeading event with
    | Some heading =>
        {| v1_azimuth := Some (JS.Math_round heading);
           v1_pitch := v1_pitch this; v1_isTracking := v1_isTracking this |}
    | None =>
        match alpha event with
        | Some a =>
            {| v1_azimuth := Some (JS.Math_round ((360 # 1) - a)%Q);
               v1_pitch := v1_pitch this;
               v1_isTracking := v1_isTracking this |}
        | None => this
        end
    end in
  match beta event with
  | Some rawBeta =>
      let p := JS.Math_round (rawBeta - (90 # 1))%Q in
      let p := if 90 <? p then 90 else p in
      let p := if p <? -90 then -90 else p in
      {| v1_azimuth := v1_azimuth this; v1_pitch := Some p;
         v1_isTracking := v1_isTracking this |}
  | None => this
  end.

Definition v1_handler (l : listener)
  : OrientationManager_v1 -> DeviceOrientationEvent -> OrientationManager_v1 :=
  match l with
  | deviceorientationabsolute => v1_handleOrientationAbsolute
  | deviceorientation => v1_handleOrientation
  end.

(** The events of a sequence that carry an azimuth candidate. *)
Definition with_candidate (events : list (listener * DeviceOrientationEvent))
  : list (listener * DeviceOrientationEvent) :=
  filter (fun le => match candidate (fst le) (snd le) with
                    | Some _ => true
                    | None => false
                    end) events.

(** A compass reading less than 90 degrees away from north. *)
Definition northward (v : Z) : Prop := 0 <= v < 90 \/ 270 < v <= 360.

(** * Properties *)

Example rem_540 : (JS.rem (540 # 1) (360 # 1) == 180 # 1)%Q.
Proof. reflexivity. Qed.

Example round_half_up :
  JS.Math_round (5 # 2) = 3 /\ JS.Math_round (- (5 # 2)) = -2.
Proof. split; reflexivity. Qed.

Example display_text :
  Page.show_number 360 = "360"%string /\ Page.show_number (-7) = "-7"%string
  /\ Page.show_number 0 = "0"%string.
Proof. repeat split; reflexivity. Qed.

(** ** Arithmetic of [Math.round] and [%] *)

Section Rounding.

Local Open Scope Q_scope.

Lemma Math_round_nearest (x : Q) :
  Spec.nearest_integer x (JS.Math_round x).
Proof.
  unfold Spec.nearest_integer, JS.Math_round.
  pose proof (Qfloor_le (x + (1 # 2))) as Hlo.
  pose proof (Qlt_floor (x + (1 # 2))) as Hhi.
  rewrite inject_Z_plus in Hhi. change (inject_Z 1) with 1 in Hhi.
  split; lra.
Qed.

Lemma Math_round_unique (x : Q) (n : Z) :
  Spec.nearest_integer x n -> JS.Math_round x = n.
Proof.
  intros [Hlo Hhi]. unfold JS.Math_round.
  assert (H1 : (n <= Qfloor (x + (1 # 2)))%Z).
  { rewrite <- (Qfloor_Z n). apply Qfloor_resp_le. lra. }
  assert (H2 : (Qfloor (x + (1 # 2)) < n + 1)%Z).
  { rewrite Zlt_Qlt. eapply Qle_lt_trans; [apply Qfloor_le|].
    rewrite inject_Z_plus. change (inject_Z 1) with 1. lra. }
  lia.
Qed.

Lemma Math_round_inject_Z (n : Z) : JS.Math_round (inject_Z n) = n.
Proof. apply Math_round_unique. unfold Spec.nearest_integer. lra. Qed.

Lemma Math_round_between (lo hi : Z) (x : Q) :
  inject_Z lo <= x -> x <= inject_Z hi ->
  (lo <= JS.Math_round x <= hi)%Z.
Proof.
  intros Hlo Hhi. destruct (Math_round_nearest x) as [H1 H2].
  split.
  - assert (H : inject_Z lo < inject_Z (JS.Math_round x + 1)).
    { rewrite inject_Z_plus. change (inject_Z 1) with 1. lra. }
    rewrite <- Zlt_Qlt in H. lia.
  - assert (H : inject_Z (JS.Math_round x) < inject_Z (hi + 1)).
    { rewrite inject_Z_plus. change (inject_Z 1) with 1. lra. }
    rewrite <- Zlt_Qlt in H. lia.
Qed.

Lemma trunc_nonneg (x : Q) : 0 <= x -> JS.trunc x = Qfloor x.
Proof.
  intros Hx. destruct x as [n d]. unfold JS.trunc, Qfloor. simpl.
  unfold Qle in Hx. simpl in Hx.
  apply Z.quot_div_nonneg; lia.
Qed.

Lemma rem_reduced (x : Q) :
  0 <= x -> Spec.reduced_mod_360 x (JS.rem x (360 # 1)).
Proof.
  intros Hx. unfold Spec.reduced_mod_360, JS.rem.
  assert (Hq : 0 <= x / (360 # 1)).
  { apply Qle_shift_div_l; lra. }
  rewrite (trunc_nonneg _ Hq).
  pose proof (Qfloor_le (x / (360 # 1))) as Hlo.
  pose proof (Qlt_floor (x / (360 # 1))) as Hhi.
  rewrite inject_Z_plus in Hhi. change (inject_Z 1) with 1 in Hhi.
  set (k := inject_Z (Qfloor (x / (360 # 1)))) in *.
  assert (Hx' : x == (360 # 1) * (x / (360 # 1))) by (field).
  split.
  - split; lra.
  - exists (Qfloor (x / (360 # 1))). fold k. lra.
Qed.

End Rounding.

(** ** Field by field: what a handler does to [this] *)

Lemma smoothAzimuth_unfold (this : OrientationManager) (x : Z) :
  smoothAzimuth this x =
  (JS.Math_round (average (pushed (bufferSize this) (azimuthBuffer this) x)),
   set_azimuthBuffer this (pushed (bufferSize this) (azimuthBuffer this) x)).
Proof.
  unfold smoothAzimuth, pushed, average. cbn [azimuthBuffer bufferSize set_azimuthBuffer].
  destruct (bufferSize this <? _); reflexivity.
Qed.

Ltac split_ltb :=
  repeat match goal with
    | |- context [Z.ltb ?x ?y] =>
        destruct (Z.ltb_spec x y);
        cbn [set_pitch set_azimuth set_hasReceivedData set_smoothedAzimuth
             set_azimuthBuffer pitch azimuth azimuthBuffer bufferSize
             smoothedAzimuth hasReceivedData isTracking JS.toNumber] in *
    end.

Ltac handler_cases this event :=
  destruct this as [az p tr [|] buf size sm];
  destruct event as [[a|] [b|] g [h|]];
  cbn [alpha beta gamma webkitCompassHeading negb
       set_pitch set_azimuth set_hasReceivedData set_smoothedAzimuth
       set_azimuthBuffer pitch azimuth azimuthBuffer bufferSize
       smoothedAzimuth hasReceivedData isTracking JS.toNumber];
  split_ltb;
  rewrite ?smoothAzimuth_unfold;
  cbn [set_pitch set_azimuth set_hasReceivedData set_smoothedAzimuth
       set_azimuthBuffer pitch azimuth azimuthBuffer bufferSize
       smoothedAzimuth hasReceivedData isTracking JS.toNumber];
  try reflexivity; try lia.

Lemma handleOrientationAbsolute_ingested this event :
  handleOrientationAbsolute this event
  = ingested this (pitch_after (pitch this) (beta event))
             (candidate_absolute event).
Proof.
  unfold handleOrientationAbsolute, ingested, pitch_after, clamp_pitch,
    candidate_absolute, compensate.
  handler_cases this event.
Qed.

Lemma handleOrientation_ingested this event :
  handleOrientation this event
  = ingested this (pitch_after (pitch this) (beta event))
             (candidate_fallback event).
Proof.
  unfold handleOrientation, ingested, pitch_after, clamp_pitch,
    candidate_fallback, compensate.
  handler_cases this event.
Qed.

Lemma handler_ingested l this event :
  handler l this event
  = ingested this (pitch_after (pitch this) (beta event)) (candidate l event).
Proof.
  destruct l; cbn [handler candidate].
  - apply handleOrientationAbsolute_ingested.
  - apply handleOrientation_ingested.
Qed.

Lemma dispatch_ingested this l event :
  dispatch this l event
  = ingested this (pitch_after (pitch this) (beta event)) (candidate l event).
Proof. unfold dispatch. rewrite handler_ingested. reflexivity. Qed.

Lemma dispatch_handler this l event :
  dispatch this l event = handler l this event.
Proof. rewrite dispatch_ingested, handler_ingested. reflexivity. Qed.

(** ** Sums, means and the buffer *)

Lemma fold_left_add_shift (l : list Z) (a : Z) :
  fold_left Z.add l a = a + fold_right Z.add 0 l.
Proof.
  revert a. induction l as [|v l IH]; intros a; cbn [fold_left fold_right].
  - lia.
  - rewrite IH. lia.
Qed.

Lemma sum_fold_right (l : list Z) : JS.sum l = fold_right Z.add 0 l.
Proof. unfold JS.sum. rewrite fold_left_add_shift. lia. Qed.

Lemma sum_between (lo hi : Z) (l : list Z) :
  Forall (fun v => lo <= v <= hi) l ->
  lo * Z.of_nat (List.length l) <= fold_right Z.add 0 l
  <= hi * Z.of_nat (List.length l).
Proof.
  induction 1 as [|v l Hv _ IH]; cbn [fold_right List.length].
  - lia.
  - rewrite Nat2Z.inj_succ. lia.
Qed.

Lemma mean_between (lo hi : Z) (l : list Z) :
  l <> [] ->
  Forall (fun v => lo <= v <= hi) l ->
  (inject_Z lo <= Spec.mean l /\ Spec.mean l <= inject_Z hi)%Q.
Proof.
  intros Hne Hall. pose proof (sum_between lo hi l Hall) as [Hlo Hhi].
  assert (Hlen : 0 < Z.of_nat (List.length l)).
  { destruct l; [congruence | cbn [List.length]; lia]. }
  assert (HlenQ : (0 < inject_Z (Z.of_nat (List.length l)))%Q).
  { change 0%Q with (inject_Z 0). rewrite <- Zlt_Qlt. exact Hlen. }
  unfold Spec.mean. split.
  - apply Qle_shift_div_l; [exact HlenQ|].
    rewrite <- inject_Z_mult, <- Zle_Qle. exact Hlo.
  - apply Qle_shift_div_r; [exact HlenQ|].
    rewrite <- inject_Z_mult, <- Zle_Qle. exact Hhi.
Qed.

Lemma pushed_last_n (buffer : list Z) (x : Z) :
  (List.length buffer <= Spec.N)%nat ->
  pushed 5 buffer x = Spec.last_n Spec.N (buffer ++ [x]).
Proof.
  intros Hlen. unfold pushed, Spec.last_n, Spec.N in *.
  rewrite length_app. cbn [List.length].
  destruct (Z.ltb_spec 5 (Z.of_nat (List.length buffer + 1))) as [H|H].
  - replace (List.length buffer + 1 - 5)%nat with 1%nat by lia.
    destruct buffer; reflexivity.
  - replace (List.length buffer + 1 - 5)%nat with 0%nat by lia.
    reflexivity.
Qed.

Lemma pushed_length (buffer : list Z) (x : Z) :
  (List.length buffer <= 5)%nat ->
  (1 <= List.length (pushed 5 buffer x) <= 5)%nat.
Proof.
  intros Hlen. unfold pushed.
  pose proof (length_app buffer [x]) as Happ. cbn [List.length] in Happ.
  destruct (Z.ltb_spec 5 (Z.of_nat (List.length (buffer ++ [x])))) as [H|H].
  - destruct (buffer ++ [x]) as [|v t] eqn:E; cbn [tl List.length] in *; lia.
  - lia.
Qed.

Lemma pushed_Forall (P : Z -> Prop) (size : Z) (buffer : list Z) (x : Z) :
  Forall P buffer -> P x -> Forall P (pushed size buffer x).
Proof.
  intros Hb Hx. unfold pushed.
  assert (Hall : Forall P (buffer ++ [x])).
  { apply Forall_app. split; [exact Hb | constructor; [exact Hx | constructor]]. }
  destruct (size <? _); [|exact Hall].
  destruct (buffer ++ [x]) as [|v t]; [constructor|].
  inversion Hall; assumption.
Qed.

Lemma hasWraparound_straddles (buffer : list Z) :
  existsb (fun v => v <? 90) buffer && existsb (fun v => 270 <? v) buffer
  = true <-> Spec.straddles buffer.
Proof.
  unfold Spec.straddles. rewrite andb_true_iff, !existsb_exists.
  split; intros [[v [Hv Hlt]] [w [Hw Hgt]]]; (split; [exists v | exists w]);
    (split; [assumption|]); first [apply Z.ltb_lt; assumption | apply Z.ltb_lt in Hlt; assumption | apply Z.ltb_lt in Hgt; assumption].
Qed.

Lemma normalized_map (buffer : list Z) :
  map (fun v => if v <? 180 then v + 360 else v) buffer
  = map Spec.normalize buffer.
Proof.
  apply map_ext. intros v. unfold Spec.normalize.
  destruct (Z.ltb_spec v 180), (Z_lt_dec v 180); solve [reflexivity | lia].
Qed.

Lemma normalize_between (v : Z) :
  in_0_360 v -> 180 <= Spec.normalize v <= 539.
Proof.
  unfold in_0_360, Spec.normalize. destruct (Z_lt_dec v 180); lia.
Qed.

(** The value [smoothAzimuth] computes from a buffer is the smoothed azimuth
    the specification describes. *)
Lemma average_smoothed (buffer : list Z) :
  buffer <> [] ->
  Forall in_0_360 buffer ->
  Spec.smoothed buffer (JS.Math_round (average buffer)).
Proof.
  intros Hne Hall. unfold average.
  destruct (existsb (fun v => v <? 90) buffer
            && existsb (fun v => 270 <? v) buffer) eqn:Hw.
  - apply hasWraparound_straddles in Hw.
    cbv zeta. rewrite normalized_map, sum_fold_right.
    fold (Spec.mean (map Spec.normalize buffer)).
    assert (Hm : (inject_Z 180 <= Spec.mean (map Spec.normalize buffer)
                  /\ Spec.mean (map Spec.normalize buffer) <= inject_Z 539)%Q).
    { apply mean_between.
      - destruct buffer; [congruence | discriminate].
      - apply Forall_map. eapply Forall_impl; [|exact Hall].
        intros v Hv. apply normalize_between. exact Hv. }
    eapply Spec.smoothed_seam.
    + exact Hw.
    + apply rem_reduced. destruct Hm as [Hm _].
      change (inject_Z 180) with (180 # 1)%Q in Hm. lra.
    + apply Math_round_nearest.
  - rewrite sum_fold_right. fold (Spec.mean buffer).
    apply Spec.smoothed_plain.
    + intros Hs. apply hasWraparound_straddles in Hs. congruence.
    + apply Math_round_nearest.
Qed.

(** The smoothed azimuth of a buffer of compass readings is again within
    0..360 (both ends included). *)
Lemma smoothed_between (buffer : list Z) (r : Z) :
  buffer <> [] ->
  Forall in_0_360 buffer ->
  Spec.smoothed buffer r ->
  in_0_360 r.
Proof.
  intros Hne Hall Hs. unfold in_0_360.
  destruct Hs as [_ Hr | y _ [[Hy0 Hy1] _] Hr].
  - destruct (mean_between 0 360 buffer Hne Hall) as [Hlo Hhi].
    rewrite <- (Math_round_unique _ _ Hr).
    apply Math_round_between; assumption.
  - rewrite <- (Math_round_unique _ _ Hr).
    apply Math_round_between.
    + change (inject_Z 0) with 0%Q. exact Hy0.
    + change (inject_Z 360) with (360 # 1)%Q. lra.
Qed.

(** ** Invariants of the ingestion path *)

Lemma clamp_pitch_between (p : Z) : -90 <= clamp_pitch p <= 90.
Proof.
  unfold clamp_pitch.
  destruct (Z.ltb_spec 90 p); [lia|]. destruct (Z.ltb_spec p (-90)); lia.
Qed.

Lemma clamp_pitch_max_min (p : Z) :
  clamp_pitch p = Z.max (-90) (Z.min 90 p).
Proof.
  unfold clamp_pitch.
  destruct (Z.ltb_spec 90 p); [lia|]. destruct (Z.ltb_spec p (-90)); lia.
Qed.

Lemma pitch_after_between (old : option Z) (rawBeta : option Q) :
  opt_in (-90) 90 old -> opt_in (-90) 90 (pitch_after old rawBeta).
Proof.
  intros Hold. destruct rawBeta as [b|]; cbn [pitch_after opt_in].
  - apply clamp_pitch_between.
  - exact Hold.
Qed.

Lemma new_shape : shape new_OrientationManager.
Proof. split; cbn; [reflexivity | lia | exact I]. Qed.

Lemma ingested_shape this p c :
  shape this -> opt_in (-90) 90 p -> shape (ingested this p c).
Proof.
  intros [Hsize Hlen Hp] Hp'. destruct c as [c|]; cbn [ingested].
  - split; cbn [bufferSize azimuthBuffer pitch]; try assumption.
    rewrite Hsize. apply pushed_length. exact Hlen.
  - split; cbn [bufferSize azimuthBuffer pitch]; assumption.
Qed.

Lemma handler_shape l this event :
  shape this -> shape (handler l this event).
Proof.
  intros H. rewrite handler_ingested. apply ingested_shape; [exact H|].
  apply pitch_after_between. apply (shape_pitch _ H).
Qed.

Lemma run_snoc events l event :
  run (events ++ [(l, event)]) = dispatch (run events) l event.
Proof. unfold run. rewrite fold_left_app. reflexivity. Qed.

Lemma run_shape events : shape (run events).
Proof.
  induction events as [|[l event] events IH] using rev_ind.
  - exact new_shape.
  - rewrite run_snoc, dispatch_handler. apply handler_shape. exact IH.
Qed.

Section Ranges.

Local Open Scope Q_scope.

Lemma candidate_between l event c :
  Spec.valid_sample event ->
  candidate l event = Some c ->
  0 <= c /\ c <= 360 # 1.
Proof.
  intros (Ha & _ & _ & Hh) Hc.
  destruct l; cbn [candidate] in Hc;
    unfold candidate_absolute, candidate_fallback in Hc;
    destruct (alpha event) as [a|], (beta event) as [b|],
      (webkitCompassHeading event) as [h|];
    cbn [Spec.within] in *; inversion Hc; subst; lra.
Qed.

Lemma compensate_between p c :
  0 <= c -> c <= 360 # 1 ->
  0 <= compensate p c /\ compensate p c <= 360 # 1.
Proof.
  intros H0 H1. unfold compensate.
  destruct (45 <? JS.toNumber p)%Z; [|lra].
  destruct (rem_reduced (c + (180 # 1))) as [[Hlo Hhi] _]; lra.
Qed.

End Ranges.

Lemma new_ranges : ranges new_OrientationManager.
Proof. split; cbn; [constructor | exact I | exact I]. Qed.

Lemma ingested_ranges this p l event :
  shape this -> ranges this -> Spec.valid_sample event ->
  ranges (ingested this p (candidate l event)).
Proof.
  intros [Hsize Hlen _] [Hbuf Haz Hsm] Hvalid.
  destruct (candidate l event) as [c|] eqn:Hc; cbn [ingested].
  - destruct (candidate_between _ _ _ Hvalid Hc) as [H0 H1].
    destruct (compensate_between p c H0 H1) as [H2 H3].
    assert (Hraw : in_0_360 (JS.Math_round (compensate p c))).
    { apply Math_round_between; assumption. }
    assert (Hall : Forall in_0_360
                     (pushed (bufferSize this) (azimuthBuffer this)
                             (JS.Math_round (compensate p c)))).
    { apply pushed_Forall; assumption. }
    assert (Hne : pushed (bufferSize this) (azimuthBuffer this)
                         (JS.Math_round (compensate p c)) <> []).
    { rewrite Hsize. intros E.
      pose proof (pushed_length (azimuthBuffer this)
                    (JS.Math_round (compensate p c)) Hlen) as Hl.
      rewrite E in Hl. cbn in Hl. lia. }
    split; cbn [azimuthBuffer azimuth smoothedAzimuth opt_in].
    + exact Hall.
    + exact Hraw.
    + apply (smoothed_between _ _ Hne Hall).
      apply average_smoothed; assumption.
  - split; cbn [azimuthBuffer azimuth smoothedAzimuth]; assumption.
Qed.

Lemma handler_ranges l this event :
  shape this -> ranges this -> Spec.valid_sample event ->
  ranges (handler l this event).
Proof.
  intros Hs Hr Hv. rewrite handler_ingested. apply ingested_ranges; assumption.
Qed.

(** Over any sequence of valid samples the raw azimuth, the smoothed azimuth
    and every buffer entry stay within 0..360, both ends included. *)
Lemma run_ranges events :
  Forall (fun le => Spec.valid_sample (snd le)) events ->
  ranges (run events).
Proof.
  induction events as [|[l event] events IH] using rev_ind; intros Hall.
  - exact new_ranges.
  - apply Forall_app in Hall. destruct Hall as [Hall Hlast].
    inversion Hlast as [|? ? Hv _]; subst. cbn [snd] in Hv.
    rewrite run_snoc, dispatch_handler.
    apply handler_ranges; [apply run_shape | apply IH; exact Hall | exact Hv].
Qed.

(** * The claims *)

(** ** C1: range of the raw and of the smoothed azimuth *)

(** C1.  The claim bounds the raw and the smoothed azimuth by 360 excluded.
    The handlers reduce modulo 360 before they round, and the fallback
    candidate [360 - alpha] is not reduced at all, so 360 itself is stored:
    a fallback sample with [alpha = 0] stores raw and smoothed azimuth 360,
    and two absolute samples 359 then 0 (raw azimuths both below 360) give the
    smoothed azimuth 360.  All three samples are valid. *)
Theorem C1_azimuth_reaches_360 :
  let s0 := sample (Some (0 # 1)) None None in
  let s1 := sample (Some (359 # 1)) (Some (90 # 1)) None in
  let s2 := sample (Some (0 # 1)) (Some (90 # 1)) None in
  let fallback := run [(deviceorientation, s0)] in
  let seam := run [(deviceorientationabsolute, s1);
                   (deviceorientationabsolute, s2)] in
  (Spec.valid_sample s0 /\ Spec.valid_sample s1 /\ Spec.valid_sample s2) /\
  azimuth fallback = Some 360 /\
  smoothedAzimuth fallback = Some 360 /\
  azimuth seam = Some 0 /\
  azimuthBuffer seam = [359; 0] /\
  smoothedAzimuth seam = Some 360.
Proof.
  cbv zeta. split.
  - unfold Spec.valid_sample, sample; cbn [alpha beta gamma webkitCompassHeading Spec.within].
    repeat split; try exact I; lra.
  - repeat split; vm_compute; reflexivity.
Qed.

(** The bound that does hold: over valid samples the raw azimuth and the
    smoothed azimuth, when set, are within 0..360 with 360 included. *)
Theorem azimuth_within_0_360 events :
  Forall (fun le => Spec.valid_sample (snd le)) events ->
  opt_in 0 360 (azimuth (run events)) /\
  opt_in 0 360 (smoothedAzimuth (run events)).
Proof.
  intros H. destruct (run_ranges events H) as [_ Ha Hs]. split; assumption.
Qed.

(** ** C2: the cardinal direction *)

Lemma directions_at_defined (index : Z) :
  0 <= index < 16 ->
  exists label, directions_at index = Some label /\
                nth_error directions (Z.to_nat index) = Some label.
Proof.
  intros H. unfold directions_at.
  destruct (Z.ltb_spec index 0); [lia|].
  destruct (nth_error directions (Z.to_nat index)) as [label|] eqn:E.
  - exists label. split; reflexivity.
  - apply nth_error_None in E. cbn [directions List.length] in E. lia.
Qed.

Lemma Math_round_nonneg (x : Q) : (0 <= x)%Q -> 0 <= JS.Math_round x.
Proof.
  intros Hx. destruct (Math_round_nearest x) as [_ Hhi].
  assert (H : (inject_Z (-1) < inject_Z (JS.Math_round x))%Q).
  { change (inject_Z (-1)) with (- (1 # 1))%Q. lra. }
  rewrite <- Zlt_Qlt in H. lia.
Qed.

(** C2, the claim as stated fails at 22 degrees: the function answers NNE,
    not N (22 / 22.5 rounds to 1). *)
Lemma C2_counterexample :
  getCardinalDirection (22 # 1) = Some "NNE"%string /\
  getCardinalDirection (22 # 1) <> Some "N"%string.
Proof. split; [reflexivity | discriminate]. Qed.

(** C2, amended.  For every azimuth that is not negative,
    [getCardinalDirection] returns the label at index
    round(azimuth / 22.5) mod 16 of the 16-point rose N, NNE, ..., NNW, and
    that index exists; a value that rounds to index 16 wraps to N; 0 maps to
    N, 22 and 23 map to NNE, 359 and 360 map to N. *)
Theorem C2_getCardinalDirection :
  (forall azimuth : Q,
      (0 <= azimuth)%Q ->
      let index := (JS.Math_round (azimuth / (45 # 2))%Q) mod 16 in
      exists label,
        nth_error
          ["N"; "NNE"; "NE"; "ENE"; "E"; "ESE"; "SE"; "SSE";
           "S"; "SSW"; "SW"; "WSW"; "W"; "WNW"; "NW"; "NNW"]%string
          (Z.to_nat index) = Some label /\
        getCardinalDirection azimuth = Some label) /\
  (forall azimuth : Q,
      JS.Math_round (azimuth / (45 # 2))%Q = 16 ->
      getCardinalDirection azimuth = Some "N"%string) /\
  getCardinalDirection (0 # 1) = Some "N"%string /\
  getCardinalDirection (22 # 1) = Some "NNE"%string /\
  getCardinalDirection (23 # 1) = Some "NNE"%string /\
  getCardinalDirection (359 # 1) = Some "N"%string /\
  getCardinalDirection (360 # 1) = Some "N"%string.
Proof.
  split; [|split; [|repeat split; reflexivity]].
  - intros az Haz index. unfold getCardinalDirection.
    assert (Hr : 0 <= JS.Math_round (az / (45 # 2))%Q).
    { apply Math_round_nonneg. apply Qle_shift_div_l; lra. }
    rewrite Z.rem_mod_nonneg by lia. fold index.
    assert (Hi : 0 <= index < 16) by (apply Z.mod_pos_bound; lia).
    destruct (directions_at_defined index Hi) as (label & H1 & H2).
    exists label. split; assumption.
  - intros az H16. unfold getCardinalDirection. rewrite H16. reflexivity.
Qed.

Lemma C2_getCardinalDirection_witness :
  (0 <= 100 # 1)%Q /\
  getCardinalDirection (100 # 1) = Some "E"%string.
Proof.
  split; [lra|].
  destruct (proj1 C2_getCardinalDirection (100 # 1)) as (label & H1 & H2).
  - lra.
  - rewrite H2. rewrite <- H1. reflexivity.
Defined.

(** ** C3 and C5: the smoothing step and its buffer *)

Lemma feed_snoc this raws x :
  feed this (raws ++ [x])
  = (Some (fst (smoothAzimuth (snd (feed this raws)) x)),
     snd (smoothAzimuth (snd (feed this raws)) x)).
Proof.
  unfold feed. rewrite fold_left_app. cbn [fold_left].
  destruct (smoothAzimuth _ x). reflexivity.
Qed.

Lemma feed_bufferSize this raws :
  bufferSize (snd (feed this raws)) = bufferSize this.
Proof.
  induction raws as [|x raws IH] using rev_ind.
  - reflexivity.
  - rewrite feed_snoc, smoothAzimuth_unfold. cbn [snd bufferSize set_azimuthBuffer].
    exact IH.
Qed.

Lemma feed_buffer this raws :
  azimuthBuffer (snd (feed this raws))
  = fold_left (pushed (bufferSize this)) raws (azimuthBuffer this).
Proof.
  induction raws as [|x raws IH] using rev_ind.
  - reflexivity.
  - rewrite feed_snoc, smoothAzimuth_unfold, fold_left_app.
    cbn [snd azimuthBuffer set_azimuthBuffer fold_left].
    rewrite feed_bufferSize, IH. reflexivity.
Qed.

Lemma feed_result this raws x :
  fst (feed this (raws ++ [x]))
  = Some (JS.Math_round (average (azimuthBuffer (snd (feed this (raws ++ [x])))))).
Proof.
  rewrite feed_snoc, smoothAzimuth_unfold. reflexivity.
Qed.

(** C3.  Called on a manager whose buffer holds at most 5 compass readings,
    [smoothAzimuth] keeps the 5 most recent readings and returns their
    smoothed azimuth as the specification words it: the plain mean rounded to
    the nearest integer unless some reading is below 90 and some above 270,
    and otherwise the mean of the readings with 360 added to those below 180,
    reduced modulo 360 and then rounded.  The buffer 350, 355, 358, 2, 5
    gives 358 and the buffer 10, 12, 11, 13, 12 gives 12. *)
Theorem C3_smoothAzimuth :
  (forall (this : OrientationManager) (newAzimuth : Z),
      bufferSize this = 5 ->
      (List.length (azimuthBuffer this) <= 5)%nat ->
      Forall in_0_360 (azimuthBuffer this) ->
      in_0_360 newAzimuth ->
      let result := smoothAzimuth this newAzimuth in
      azimuthBuffer (snd result)
      = Spec.last_n Spec.N (azimuthBuffer this ++ [newAzimuth]) /\
      Spec.smoothed (azimuthBuffer (snd result)) (fst result)) /\
  (let result := feed new_OrientationManager [350; 355; 358; 2; 5] in
   azimuthBuffer (snd result) = [350; 355; 358; 2; 5] /\
   Spec.straddles (azimuthBuffer (snd result)) /\
   fst result = Some 358) /\
  (let result := feed new_OrientationManager [10; 12; 11; 13; 12] in
   azimuthBuffer (snd result) = [10; 12; 11; 13; 12] /\
   ~ Spec.straddles (azimuthBuffer (snd result)) /\
   fst result = Some 12).
Proof.
  split; [|split].
  - intros this x Hsize Hlen Hall Hx result. subst result.
    rewrite smoothAzimuth_unfold. cbn [fst snd azimuthBuffer set_azimuthBuffer].
    rewrite Hsize. split.
    + apply pushed_last_n. exact Hlen.
    + apply average_smoothed.
      * intros E. pose proof (pushed_length (azimuthBuffer this) x Hlen) as Hl.
        rewrite E in Hl. cbn in Hl. lia.
      * apply pushed_Forall; assumption.
  - cbv zeta. split; [reflexivity|]. split; [|reflexivity].
    apply hasWraparound_straddles. reflexivity.
  - cbv zeta. split; [reflexivity|]. split; [|reflexivity].
    intros H. apply hasWraparound_straddles in H. discriminate H.
Qed.

Lemma C3_smoothAzimuth_witness :
  let this := snd (feed new_OrientationManager [350; 355; 358; 2]) in
  bufferSize this = 5 /\
  (List.length (azimuthBuffer this) <= 5)%nat /\
  Forall in_0_360 (azimuthBuffer this) /\
  in_0_360 5 /\
  Spec.smoothed (azimuthBuffer (snd (smoothAzimuth this 5)))
                (fst (smoothAzimuth this 5)).
Proof.
  cbv zeta.
  assert (H1 : bufferSize (snd (feed new_OrientationManager [350; 355; 358; 2])) = 5)
    by reflexivity.
  assert (H2 : (List.length (azimuthBuffer
                  (snd (feed new_OrientationManager [350; 355; 358; 2]%Z))) <= 5)%nat)
    by (vm_compute; lia).
  assert (H3 : Forall in_0_360
                 (azimuthBuffer (snd (feed new_OrientationManager [350; 355; 358; 2])))).
  { change (Forall in_0_360 [350; 355; 358; 2]).
    repeat constructor; unfold in_0_360; lia. }
  assert (H4 : in_0_360 5) by (unfold in_0_360; lia).
  split; [exact H1|]. split; [exact H2|]. split; [exact H3|].
  split; [exact H4|].
  exact (proj2 (proj1 C3_smoothAzimuth _ 5 H1 H2 H3 H4)).
Defined.

(** C5.  The buffer never holds more than 5 elements, after any sequence of
    events; [smoothAzimuth] keeps the last 5 of the old buffer followed by the
    new value, so the oldest goes first; after 6 raw azimuths fed to a fresh
    manager the buffer holds exactly the last 5, and the smoothed value does
    not depend on the first one. *)
Theorem C5_buffer_fifo :
  (forall events, (List.length (azimuthBuffer (run events)) <= 5)%nat) /\
  (forall (this : OrientationManager) (newAzimuth : Z),
      bufferSize this = 5 ->
      (List.length (azimuthBuffer this) <= 5)%nat ->
      let buffer := azimuthBuffer (snd (smoothAzimuth this newAzimuth)) in
      buffer = Spec.last_n 5 (azimuthBuffer this ++ [newAzimuth]) /\
      (List.length buffer <= 5)%nat) /\
  (forall a1 a2 a3 a4 a5 a6 : Z,
      let result := feed new_OrientationManager [a1; a2; a3; a4; a5; a6] in
      azimuthBuffer (snd result) = [a2; a3; a4; a5; a6] /\
      List.length (azimuthBuffer (snd result)) = 5%nat /\
      fst result = Some (JS.Math_round (average [a2; a3; a4; a5; a6])) /\
      forall a1' : Z,
        fst (feed new_OrientationManager [a1'; a2; a3; a4; a5; a6])
        = fst result).
Proof.
  split; [|split].
  - intros events. apply (shape_length _ (run_shape events)).
  - intros this x Hsize Hlen buffer. subst buffer.
    rewrite smoothAzimuth_unfold. cbn [snd azimuthBuffer set_azimuthBuffer].
    rewrite Hsize. split.
    + apply pushed_last_n. exact Hlen.
    + apply pushed_length. exact Hlen.
  - intros a1 a2 a3 a4 a5 a6 result.
    assert (Hbuf : forall a, azimuthBuffer
                     (snd (feed new_OrientationManager [a; a2; a3; a4; a5; a6]))
                   = [a2; a3; a4; a5; a6]).
    { intros a. rewrite feed_buffer. reflexivity. }
    assert (Hres : forall a, fst (feed new_OrientationManager [a; a2; a3; a4; a5; a6])
                   = Some (JS.Math_round (average [a2; a3; a4; a5; a6]))).
    { intros a. change [a; a2; a3; a4; a5; a6] with ([a; a2; a3; a4; a5] ++ [a6]).
      rewrite feed_result. cbn [app]. rewrite Hbuf. reflexivity. }
    subst result. rewrite Hbuf, Hres.
    split; [reflexivity|]. split; [reflexivity|]. split; [reflexivity|].
    intros a1'. apply Hres.
Qed.

Lemma C5_buffer_fifo_witness :
  bufferSize (snd (feed new_OrientationManager [1; 2; 3; 4; 5])) = 5 /\
  azimuthBuffer
    (snd (smoothAzimuth (snd (feed new_OrientationManager [1; 2; 3; 4; 5])) 6))
  = [2; 3; 4; 5; 6].
Proof.
  split; [reflexivity|].
  assert (H1 : bufferSize (snd (feed new_OrientationManager [1; 2; 3; 4; 5])) = 5)
    by reflexivity.
  assert (H2 : (List.length (azimuthBuffer
                  (snd (feed new_OrientationManager [1; 2; 3; 4; 5]%Z))) <= 5)%nat)
    by (vm_compute; lia).
  rewrite (proj1 (proj1 (proj2 C5_buffer_fifo) _ 6 H1 H2)).
  reflexivity.
Defined.

(** ** C4: tilt compensation *)

Section Integers.

Local Open Scope Q_scope.

Lemma Math_round_integer (x : Q) (n : Z) :
  x == inject_Z n -> JS.Math_round x = n.
Proof.
  intros H. apply Math_round_unique. unfold Spec.nearest_integer. lra.
Qed.

Lemma Math_round_rem_integer (c : Q) (n : Z) :
  c == inject_Z n -> (0 <= n)%Z ->
  JS.Math_round (JS.rem (c + (180 # 1)) (360 # 1)) = ((n + 180) mod 360)%Z.
Proof.
  intros Hc Hn.
  assert (Hn' : 0 <= inject_Z n).
  { change 0 with (inject_Z 0). rewrite <- Zle_Qle. exact Hn. }
  destruct (rem_reduced (c + (180 # 1))) as [[Hlo Hhi] [k Hk]]; [lra|].
  set (y := JS.rem (c + (180 # 1)) (360 # 1)) in *.
  set (m := (n + 180 - 360 * k)%Z).
  assert (Hm : inject_Z m == inject_Z n + (180 # 1) - (360 # 1) * inject_Z k).
  { unfold m. rewrite <- Z.add_opp_r.
    rewrite !inject_Z_plus, inject_Z_opp, inject_Z_mult.
    change (inject_Z 180) with (180 # 1).
    change (inject_Z 360) with (360 # 1). lra. }
  assert (Hy : y == inject_Z m) by lra.
  rewrite (Math_round_integer y m Hy).
  assert (H0 : (0 <= m)%Z).
  { rewrite Zle_Qle. change (inject_Z 0) with 0. lra. }
  assert (H1 : (m < 360)%Z).
  { rewrite Zlt_Qlt. change (inject_Z 360) with (360 # 1). lra. }
  apply (Z.mod_unique_pos _ _ k m); unfold m in *; lia.
Qed.

End Integers.

Lemma ingested_azimuth this p c :
  azimuth (ingested this p (Some c)) = Some (JS.Math_round (compensate p c)).
Proof. reflexivity. Qed.

Lemma ingested_pitch this p c : pitch (ingested this p c) = p.
Proof. destruct c; reflexivity. Qed.

(** C4.  On every path, when the sample has an azimuth candidate (alpha on
    the absolute path, the compass heading, or 360 - alpha on the fallback
    path), the stored azimuth is the rounded compensated candidate: the
    candidate plus 180 modulo 360 when the engine's pitch exceeds 45, the
    candidate itself otherwise (pitch at most 45, or still null).  For an
    integer candidate within 0..360 the rounding changes nothing: the stored
    azimuth is (candidate + 180) mod 360, respectively the candidate.  With
    pitch 50 the candidate 10 is stored as 190 on each of the three sources,
    with pitch 30 it is stored as 10. *)
Theorem C4_tilt_compensation :
  (forall (l : listener) (this : OrientationManager)
          (event : DeviceOrientationEvent) (c : Q),
      candidate l event = Some c ->
      let this' := handler l this event in
      (forall p, pitch this' = Some p -> 45 < p ->
                 azimuth this'
                 = Some (JS.Math_round (JS.rem (c + (180 # 1))%Q (360 # 1)))) /\
      (pitch this' = None \/ (exists p, pitch this' = Some p /\ p <= 45) ->
       azimuth this' = Some (JS.Math_round c)) /\
      (forall n : Z,
          (c == inject_Z n)%Q -> 0 <= n <= 360 ->
          (forall p, pitch this' = Some p -> 45 < p ->
                     azimuth this' = Some ((n + 180) mod 360)) /\
          (pitch this' = None \/ (exists p, pitch this' = Some p /\ p <= 45) ->
           azimuth this' = Some n))) /\
  (forall this : OrientationManager,
      let tilted l e :=
        pitch (handler l this e) = Some 50 /\
        azimuth (handler l this e) = Some 190 in
      let level l e :=
        pitch (handler l this e) = Some 30 /\
        azimuth (handler l this e) = Some 10 in
      tilted deviceorientationabsolute
             (sample (Some (10 # 1)) (Some (140 # 1)) None) /\
      tilted deviceorientation
             (sample None (Some (140 # 1)) (Some (10 # 1))) /\
      tilted deviceorientation
             (sample (Some (350 # 1)) (Some (140 # 1)) None) /\
      level deviceorientationabsolute
            (sample (Some (10 # 1)) (Some (120 # 1)) None) /\
      level deviceorientation
            (sample None (Some (120 # 1)) (Some (10 # 1))) /\
      level deviceorientation
            (sample (Some (350 # 1)) (Some (120 # 1)) None)).
Proof.
  split.
  - intros l this event c Hc this'. subst this'.
    rewrite handler_ingested, Hc, ingested_azimuth, ingested_pitch.
    set (p' := pitch_after (pitch this) (beta event)).
    assert (Hhigh : forall p, p' = Some p -> 45 < p ->
                    compensate p' c = JS.rem (c + (180 # 1))%Q (360 # 1)).
    { intros p Hp Hgt. unfold compensate. rewrite Hp. cbn [JS.toNumber].
      destruct (Z.ltb_spec 45 p); [reflexivity | lia]. }
    assert (Hlow : p' = None \/ (exists p, p' = Some p /\ p <= 45) ->
                   compensate p' c = c).
    { intros [Hp | [p [Hp Hle]]]; unfold compensate; rewrite Hp;
        cbn [JS.toNumber]; [reflexivity|].
      destruct (Z.ltb_spec 45 p); [lia | reflexivity]. }
    split; [|split].
    + intros p Hp Hgt. rewrite (Hhigh p Hp Hgt). reflexivity.
    + intros H. rewrite (Hlow H). reflexivity.
    + intros n Hn Hrange. split.
      * intros p Hp Hgt. rewrite (Hhigh p Hp Hgt).
        rewrite (Math_round_rem_integer c n Hn) by lia. reflexivity.
      * intros H. rewrite (Hlow H).
        rewrite (Math_round_integer c n Hn). reflexivity.
  - intros this. cbv beta zeta. rewrite !handler_ingested.
    repeat split; reflexivity.
Qed.

Lemma C4_tilt_compensation_witness :
  let event := sample None None (Some (10 # 1)) in
  let this := set_pitch new_OrientationManager (Some 50) in
  candidate deviceorientation event = Some (10 # 1)%Q /\
  pitch (handler deviceorientation this event) = Some 50 /\
  45 < 50 /\
  azimuth (handler deviceorientation this event) = Some 190.
Proof.
  cbv zeta. split; [reflexivity|]. split; [reflexivity|]. split; [lia|].
  exact (proj1 (proj1 C4_tilt_compensation deviceorientation
                  (set_pitch new_OrientationManager (Some 50))
                  (sample None None (Some (10 # 1))) (10 # 1)%Q eq_refl)
               50 eq_refl eq_refl).
Defined.

(** ** C6: the device-relative fallback *)

(** Away from [alpha = 0] the fallback candidate [360 - alpha] is the value
    (360 - alpha) mod 360. *)
Lemma fallback_candidate_reduced (a : Q) :
  (0 < a)%Q -> (a <= 360 # 1)%Q ->
  candidate_fallback (sample (Some a) None None) = Some ((360 # 1) - a)%Q /\
  Spec.reduced_mod_360 ((360 # 1) - a)%Q ((360 # 1) - a)%Q.
Proof.
  intros H0 H1. split; [reflexivity|]. split; [split; lra|].
  exists 0. change (inject_Z 0) with 0%Q. lra.
Qed.

(** C6.  The claim puts the fallback candidate at (360 - alpha) mod 360.  The
    handler computes [360 - alpha] and does not reduce it: at the valid sample
    [alpha = 0] the candidate is 360, where (360 - 0) mod 360 is 0, and with
    no pitch yet the raw azimuth stored is 360.  At [alpha = 90] the candidate
    and the raw azimuth are 270, as the claim says. *)
Theorem C6_fallback_candidate_at_alpha_0 :
  let event := sample (Some (0 # 1)) None None in
  Spec.valid_sample event /\
  candidate_fallback event = Some (360 # 1)%Q /\
  Spec.reduced_mod_360 ((360 # 1) - (0 # 1))%Q (0 # 1)%Q /\
  ~ (360 # 1 == 0 # 1)%Q /\
  azimuth (handleOrientation new_OrientationManager event) = Some 360 /\
  candidate_fallback (sample (Some (90 # 1)) None None) = Some (270 # 1)%Q /\
  azimuth (handleOrientation new_OrientationManager
             (sample (Some (90 # 1)) None None)) = Some 270.
Proof.
  cbv zeta. split.
  { unfold Spec.valid_sample, sample;
      cbn [alpha beta gamma webkitCompassHeading Spec.within].
    repeat split; try exact I; lra. }
  split; [reflexivity|]. split.
  { split; [split; lra|]. exists 1. change (inject_Z 1) with 1%Q. lra. }
  split; [intros H; lra|].
  split; [vm_compute; reflexivity|].
  split; [reflexivity | vm_compute; reflexivity].
Qed.

(** ** C7: the pitch *)

(** C7.  For every sample with a non-null [beta], whatever its value and so in
    particular within -180..180, and on either path, the stored pitch is
    round(beta - 90) clamped to -90..90; it is computed before the azimuth of
    the same sample, whose compensation test reads this new pitch and not the
    one held before.  After any sequence of events the pitch, when set, is
    within -90..90. *)
Theorem C7_pitch :
  (forall (l : listener) (this : OrientationManager)
          (event : DeviceOrientationEvent) (b : Q),
      beta event = Some b ->
      let this' := handler l this event in
      let p := Z.max (-90) (Z.min 90 (JS.Math_round (b - (90 # 1))%Q)) in
      pitch this' = Some p /\
      -90 <= p <= 90 /\
      (forall c, candidate l event = Some c ->
                 azimuth this'
                 = Some (JS.Math_round
                           (if 45 <? p
                            then JS.rem (c + (180 # 1))%Q (360 # 1)
                            else c)))) /\
  (forall events, opt_in (-90) 90 (pitch (run events))).
Proof.
  split.
  - intros l this event b Hb this' p. subst this'.
    rewrite handler_ingested, Hb. cbn [pitch_after].
    rewrite clamp_pitch_max_min. fold p.
    split; [apply ingested_pitch|]. split; [unfold p; lia|].
    intros c Hc. rewrite Hc, ingested_azimuth. reflexivity.
  - intros events. apply (shape_pitch _ (run_shape events)).
Qed.

Lemma C7_pitch_witness :
  let event := sample (Some (10 # 1)) (Some (140 # 1)) None in
  let this := handler deviceorientationabsolute new_OrientationManager event in
  beta event = Some (140 # 1)%Q /\
  pitch this = Some 50 /\
  azimuth this = Some 190.
Proof.
  cbv zeta. split; [reflexivity|].
  pose proof (proj1 C7_pitch deviceorientationabsolute new_OrientationManager
                (sample (Some (10 # 1)) (Some (140 # 1)) None)
                (140 # 1)%Q eq_refl) as H.
  cbv zeta in H. destruct H as (Hp & _ & Ha).
  split.
  - rewrite Hp. reflexivity.
  - rewrite (Ha (10 # 1)%Q eq_refl). reflexivity.
Defined.

(** ** C9 and C10: which fields a sample with a null field touches *)

(** C9.  On the absolute path a sample whose [alpha] or whose [beta] is null
    leaves the raw azimuth, the smoothed azimuth and the buffer as they were;
    in particular a sample with [alpha] present and [beta] null does.  With
    both present the azimuth is set from [alpha]. *)
Theorem C9_absolute_needs_alpha_and_beta :
  (forall (this : OrientationManager) (event : DeviceOrientationEvent),
      alpha event = None \/ beta event = None ->
      let this' := handleOrientationAbsolute this event in
      azimuth this' = azimuth this /\
      smoothedAzimuth this' = smoothedAzimuth this /\
      azimuthBuffer this' = azimuthBuffer this) /\
  (forall (this : OrientationManager) (event : DeviceOrientationEvent)
          (a b : Q),
      alpha event = Some a -> beta event = Some b ->
      let this' := handleOrientationAbsolute this event in
      azimuth this' = Some (JS.Math_round (compensate (pitch this') a)) /\
      azimuthBuffer this'
      = pushed (bufferSize this) (azimuthBuffer this)
               (JS.Math_round (compensate (pitch this') a))).
Proof.
  split.
  - intros this event H this'. subst this'.
    rewrite handleOrientationAbsolute_ingested.
    assert (Hc : candidate_absolute event = None).
    { unfold candidate_absolute.
      destruct H as [H | H]; rewrite H; [reflexivity|].
      destruct (alpha event); reflexivity. }
    rewrite Hc. repeat split.
  - intros this event a b Ha Hb this'. subst this'.
    rewrite handleOrientationAbsolute_ingested.
    unfold candidate_absolute. rewrite Ha, Hb. split; reflexivity.
Qed.

Lemma C9_absolute_needs_alpha_and_beta_witness :
  let event := sample (Some (10 # 1)) None None in
  let this := run [(deviceorientationabsolute,
                    sample (Some (200 # 1)) (Some (90 # 1)) None)] in
  (alpha event = None \/ beta event = None) /\
  azimuth (handleOrientationAbsolute this event) = Some 200 /\
  azimuthBuffer (handleOrientationAbsolute this event) = [200].
Proof.
  cbv zeta. split; [right; reflexivity|].
  pose proof (proj1 C9_absolute_needs_alpha_and_beta
                (run [(deviceorientationabsolute,
                       sample (Some (200 # 1)) (Some (90 # 1)) None)])
                (sample (Some (10 # 1)) None None)
                (or_intror eq_refl)) as H.
  cbv zeta in H. destruct H as (Ha & _ & Hb).
  split.
  - rewrite Ha. vm_compute. reflexivity.
  - rewrite Hb. vm_compute. reflexivity.
Defined.

(** C10.  On the fallback path a sample with a null [beta] keeps the stored
    pitch, and its azimuth candidate (the compass heading, or 360 - alpha) is
    compensated by that stored pitch: flipped when the stored pitch exceeds
    45, left alone when it is at most 45 and when no pitch was ever stored. *)
Theorem C10_fallback_reads_stored_pitch :
  forall (this : OrientationManager) (event : DeviceOrientationEvent) (c : Q),
    beta event = None ->
    candidate_fallback event = Some c ->
    let this' := handleOrientation this event in
    pitch this' = pitch this /\
    (forall p, pitch this = Some p -> 45 < p ->
               azimuth this'
               = Some (JS.Math_round (JS.rem (c + (180 # 1))%Q (360 # 1)))) /\
    (forall p, pitch this = Some p -> p <= 45 ->
               azimuth this' = Some (JS.Math_round c)) /\
    (pitch this = None -> azimuth this' = Some (JS.Math_round c)).
Proof.
  intros this event c Hb Hc this'. subst this'.
  rewrite handleOrientation_ingested, Hb, Hc. cbn [pitch_after].
  rewrite ingested_pitch, ingested_azimuth. unfold compensate.
  split; [reflexivity|]. split; [|split].
  - intros p Hp Hgt. rewrite Hp. cbn [JS.toNumber].
    destruct (Z.ltb_spec 45 p); [reflexivity | lia].
  - intros p Hp Hle. rewrite Hp. cbn [JS.toNumber].
    destruct (Z.ltb_spec 45 p); [lia | reflexivity].
  - intros Hp. rewrite Hp. reflexivity.
Qed.

Lemma C10_fallback_reads_stored_pitch_witness :
  let tilt := sample None (Some (140 # 1)) None in
  let heading := sample None None (Some (10 # 1)) in
  let this := run [(deviceorientation, tilt)] in
  beta heading = None /\
  candidate_fallback heading = Some (10 # 1)%Q /\
  pitch this = Some 50 /\
  azimuth (handleOrientation this heading) = Some 190 /\
  pitch new_OrientationManager = None /\
  azimuth (handleOrientation new_OrientationManager heading) = Some 10.
Proof.
  cbv zeta. split; [reflexivity|]. split; [reflexivity|].
  split; [vm_compute; reflexivity|].
  pose proof (C10_fallback_reads_stored_pitch
                (run [(deviceorientation, sample None (Some (140 # 1)) None)])
                (sample None None (Some (10 # 1))) (10 # 1)%Q
                eq_refl eq_refl) as H1.
  pose proof (C10_fallback_reads_stored_pitch new_OrientationManager
                (sample None None (Some (10 # 1))) (10 # 1)%Q
                eq_refl eq_refl) as H2.
  cbv zeta in H1, H2.
  destruct H1 as (_ & Hhigh & _). destruct H2 as (_ & _ & _ & Hnull).
  split; [|split; [reflexivity|]].
  - assert (Hp : pitch (run [(deviceorientation,
                             sample None (Some (140 # 1)) None)]) = Some 50)
      by (vm_compute; reflexivity).
    rewrite (Hhigh 50 Hp eq_refl). reflexivity.
  - rewrite (Hnull eq_refl). reflexivity.
Defined.

(** ** C8: null samples and exceptions *)

Section PageCalls.

Variable MapManager : Type.

Lemma set_textContent_guarded (el : option Page.Element) (v : string) :
  Page.truthy el = true ->
  exists el', Page.set_textContent el v = Page.Normal el'.
Proof.
  destruct el as [e|]; cbn [Page.truthy Page.set_textContent]; intros H.
  - eexists. reflexivity.
  - discriminate H.
Qed.

Lemma updateDisplay_returns this (w : Page.Window MapManager) :
  exists w',
    Page.updateDisplay MapManager this w = Page.Normal w' /\
    Page.mapManager MapManager w' = Page.mapManager MapManager w.
Proof.
  unfold Page.updateDisplay. cbv zeta.
  destruct (azimuth this) as [az|], (pitch this) as [p|],
    (Page.azimuthElement MapManager w) as [e1|],
    (Page.pitchElement MapManager w) as [e2|];
    cbn [Page.truthy Page.set_textContent Page.bind];
    eexists; split; reflexivity.
Qed.

(** [updateMapMarker] returns, leaving the page as it is, when there is no map
    manager or no smoothed azimuth; otherwise it throws. *)
Lemma updateMapMarker_completion this (w : Page.Window MapManager) :
  Page.updateMapMarker MapManager this w
  = match Page.mapManager MapManager w, smoothedAzimuth this with
    | Some _, Some _ => Page.Throw "TypeError"
    | _, _ => Page.Normal w
    end.
Proof.
  unfold Page.updateMapMarker.
  destruct (Page.mapManager MapManager w) as [m|],
    (smoothedAzimuth this) as [sm|]; reflexivity.
Qed.

Lemma page_calls_completion this (w : Page.Window MapManager) :
  match Page.mapManager MapManager w, smoothedAzimuth this with
  | Some _, Some _ =>
      Page.bind (Page.updateDisplay MapManager this w)
        (fun w =>
           Page.bind (Page.updateMapMarker MapManager this w)
             (fun w => Page.Normal (this, w)))
      = Page.Throw "TypeError"
  | _, _ =>
      exists w',
        Page.bind (Page.updateDisplay MapManager this w)
          (fun w =>
             Page.bind (Page.updateMapMarker MapManager this w)
               (fun w => Page.Normal (this, w)))
        = Page.Normal (this, w') /\
        Page.mapManager MapManager w' = Page.mapManager MapManager w
  end.
Proof.
  destruct (updateDisplay_returns this w) as (w1 & H1 & Hm).
  rewrite H1. cbn [Page.bind]. rewrite updateMapMarker_completion, Hm.
  destruct (Page.mapManager MapManager w) as [m|],
    (smoothedAzimuth this) as [sm|]; cbn [Page.bind];
    try reflexivity; exists w1; (split; [reflexivity | exact Hm]).
Qed.

Lemma listener_call_completion this (w : Page.Window MapManager) l event :
  match Page.mapManager MapManager w,
        smoothedAzimuth (dispatch this l event) with
  | Some _, Some _ =>
      Page.listener_call MapManager this w l event = Page.Throw "TypeError"
  | _, _ =>
      exists w',
        Page.listener_call MapManager this w l event
        = Page.Normal (dispatch this l event, w') /\
        Page.mapManager MapManager w' = Page.mapManager MapManager w
  end.
Proof.
  unfold Page.listener_call, dispatch, Page.handleOrientationAbsolute_call,
    Page.handleOrientation_call.
  destruct l; cbn [handler]; apply page_calls_completion.
Qed.

End PageCalls.

Lemma null_sample_ingested (l : listener) (this : OrientationManager)
    (event : DeviceOrientationEvent) :
  alpha event = None -> beta event = None ->
  webkitCompassHeading event = None ->
  handler l this event = ingested this (pitch this) None /\
  dispatch this l event = ingested this (pitch this) None.
Proof.
  intros Ha Hb Hh. rewrite handler_ingested, dispatch_ingested, Hb.
  cbn [pitch_after].
  destruct l; cbn [candidate];
    unfold candidate_absolute, candidate_fallback;
    rewrite ?Ha, ?Hh; split; reflexivity.
Qed.

(** C8.  The first half of the claim holds: a sample whose [alpha] and [beta]
    are null and which carries no compass heading leaves azimuth, pitch,
    smoothed azimuth and buffer (and the buffer size and the tracking flag) as
    they were, on either path, and [hasReceivedData] is raised.  The second
    half does not: with a map manager on the page, one fallback sample with
    [alpha = 90] stores the smoothed azimuth 270 and then [updateMapMarker]
    calls [updateUserLocationRotation], which the map manager does not have,
    so the listener throws a [TypeError]; from then on every event throws,
    the null sample included, although that sample still leaves the heading
    fields as they were.  On a page without a map manager the same events
    return. *)
Theorem C8_null_sample_kept_but_marker_call_throws :
  (forall (l : listener) (this : OrientationManager)
          (event : DeviceOrientationEvent),
      alpha event = None -> beta event = None ->
      webkitCompassHeading event = None ->
      forall this',
        this' = handler l this event \/ this' = dispatch this l event ->
        azimuth this' = azimuth this /\
        pitch this' = pitch this /\
        smoothedAzimuth this' = smoothedAzimuth this /\
        azimuthBuffer this' = azimuthBuffer this /\
        bufferSize this' = bufferSize this /\
        isTracking this' = isTracking this /\
        hasReceivedData this' = true) /\
  (forall (MapManager : Type) (m : MapManager),
      let w := {| Page.azimuthElement := None; Page.pitchElement := None;
                  Page.mapManager := Some m |} in
      let first := sample (Some (90 # 1)) None None in
      let null := sample None None None in
      let this := dispatch new_OrientationManager deviceorientation first in
      smoothedAzimuth this = Some 270 /\
      Page.listener_call MapManager new_OrientationManager w
        deviceorientation first
      = Page.Throw "TypeError" /\
      Page.listener_call MapManager this w deviceorientation null
      = Page.Throw "TypeError" /\
      Page.listener_call MapManager this w deviceorientationabsolute null
      = Page.Throw "TypeError" /\
      smoothedAzimuth (dispatch this deviceorientation null) = Some 270) /\
  (forall MapManager : Type,
      let w := {| Page.azimuthElement := None; Page.pitchElement := None;
                  Page.mapManager := @None MapManager |} in
      let first := sample (Some (90 # 1)) None None in
      Page.listener_call MapManager new_OrientationManager w
        deviceorientation first
      = Page.Normal (dispatch new_OrientationManager deviceorientation first,
                     w)).
Proof.
  split; [|split].
  - intros l this event Ha Hb Hh this' Hthis'.
    destruct (null_sample_ingested l this event Ha Hb Hh) as [E1 E2].
    assert (E : this' = ingested this (pitch this) None)
      by (destruct Hthis' as [-> | ->]; assumption).
    rewrite E. repeat split.
  - intros MapManager m. cbv zeta.
    split; [vm_compute; reflexivity|].
    split; [vm_compute; reflexivity|].
    split; [vm_compute; reflexivity|].
    split; vm_compute; reflexivity.
  - intros MapManager. cbv zeta. vm_compute. reflexivity.
Qed.

Lemma C8_null_sample_kept_but_marker_call_throws_witness :
  let event := sample None None None in
  let this := run [(deviceorientation,
                    sample (Some (10 # 1)) (Some (140 # 1)) None)] in
  alpha event = None /\ beta event = None /\
  webkitCompassHeading event = None /\
  azimuth (handler deviceorientation this event) = Some 170 /\
  pitch (handler deviceorientationabsolute this event) = Some 50 /\
  azimuthBuffer (dispatch this deviceorientation event) = [170].
Proof.
  cbv zeta. split; [reflexivity|]. split; [reflexivity|].
  split; [reflexivity|].
  pose proof (fun l this' =>
                proj1 C8_null_sample_kept_but_marker_call_throws l
                  (run [(deviceorientation,
                         sample (Some (10 # 1)) (Some (140 # 1)) None)])
                  (sample None None None) eq_refl eq_refl eq_refl this') as H.
  split; [|split].
  - destruct (H deviceorientation _ (or_introl eq_refl)) as (E & _).
    rewrite E. vm_compute. reflexivity.
  - destruct (H deviceorientationabsolute _ (or_introl eq_refl)) as (_ & E & _).
    rewrite E. vm_compute. reflexivity.
  - destruct (H deviceorientation _ (or_intror eq_refl)) as (_ & _ & _ & E & _).
    rewrite E. vm_compute. reflexivity.
Defined.

(** * Further properties of the manager *)

(** ** The compass rose *)

Section Sectors.

Local Open Scope Q_scope.

Lemma Math_round_sector (x : Q) (k : Z) :
  inject_Z k * (45 # 2) - (45 # 4) <= x ->
  x < inject_Z k * (45 # 2) + (45 # 4) ->
  JS.Math_round (x / (45 # 2)) = k.
Proof.
  intros Hlo Hhi. apply Math_round_unique. unfold Spec.nearest_integer.
  assert (Hx : x == (x / (45 # 2)) * (45 # 2)) by field.
  set (q := x / (45 # 2)) in *. split; lra.
Qed.

(** [n <= Math.round(x)] exactly when [x] is at least [n - 1/2]. *)
Lemma Math_round_ge (n : Z) (x : Q) :
  (n <= JS.Math_round x)%Z <-> inject_Z n - (1 # 2) <= x.
Proof.
  destruct (Math_round_nearest x) as [Hlo Hhi]. split; intros H.
  - rewrite Zle_Qle in H. lra.
  - assert (H' : inject_Z n < inject_Z (JS.Math_round x + 1)).
    { rewrite inject_Z_plus. change (inject_Z 1) with 1. lra. }
    rewrite <- Zlt_Qlt in H'. lia.
Qed.

End Sectors.

Lemma getCardinalDirection_total (azimuth : Q) :
  (0 <= azimuth)%Q ->
  exists label,
    In label directions /\ getCardinalDirection azimuth = Some label.
Proof.
  intros Haz. unfold getCardinalDirection.
  assert (Hr : 0 <= JS.Math_round (azimuth / (45 # 2))%Q).
  { apply Math_round_nonneg. apply Qle_shift_div_l; lra. }
  rewrite Z.rem_mod_nonneg by lia.
  set (index := JS.Math_round (azimuth / (45 # 2))%Q mod 16).
  assert (Hi : 0 <= index < 16) by (apply Z.mod_pos_bound; lia).
  destruct (directions_at_defined index Hi) as (label & H1 & H2).
  exists label. split; [|exact H1].
  apply nth_error_In in H2. exact H2.
Qed.

(** X1.  Every label owns the 22.5 degree sector centred on its direction: an
    azimuth from 22.5 k - 11.25 (included) to 22.5 k + 11.25 (excluded), for
    a sector number k that is not negative, gets the label at index k mod 16.
    The sector of N therefore starts at -11.25, and sector 16 (348.75 up to
    371.25, with 360 inside) is N again. *)
Theorem getCardinalDirection_sector (azimuth : Q) (k : Z) :
  0 <= k ->
  (inject_Z k * (45 # 2) - (45 # 4) <= azimuth)%Q ->
  (azimuth < inject_Z k * (45 # 2) + (45 # 4))%Q ->
  getCardinalDirection azimuth = nth_error directions (Z.to_nat (k mod 16)).
Proof.
  intros Hk Hlo Hhi. unfold getCardinalDirection.
  rewrite (Math_round_sector azimuth k Hlo Hhi).
  rewrite Z.rem_mod_nonneg by lia.
  unfold directions_at.
  destruct (Z.ltb_spec (k mod 16) 0) as [H|H]; [|reflexivity].
  pose proof (Z.mod_pos_bound k 16). lia.
Qed.

Lemma getCardinalDirection_sector_witness :
  getCardinalDirection (100 # 1) = Some "E"%string /\
  getCardinalDirection (371 # 1) = Some "N"%string.
Proof.
  split.
  - rewrite (getCardinalDirection_sector (100 # 1) 4); [reflexivity | lia | |];
      change (inject_Z 4) with (4 # 1)%Q; lra.
  - rewrite (getCardinalDirection_sector (371 # 1) 16); [reflexivity | lia | |];
      change (inject_Z 16) with (16 # 1)%Q; lra.
Defined.

(** X2.  The function does not wrap a negative azimuth: from -348.75 (included) to
    -11.25 (excluded) the index is negative and the result is [undefined]. *)
Theorem getCardinalDirection_negative_undefined (azimuth : Q) :
  (- (1395 # 4) <= azimuth)%Q ->
  (azimuth < - (45 # 4))%Q ->
  getCardinalDirection azimuth = None.
Proof.
  intros Hlo Hhi. unfold getCardinalDirection.
  set (r := JS.Math_round (azimuth / (45 # 2))%Q).
  assert (Hx : (azimuth == (azimuth / (45 # 2)) * (45 # 2))%Q) by field.
  assert (H1 : -15 <= r).
  { apply Math_round_ge. change (inject_Z (-15)) with (- (15 # 1))%Q.
    set (q := (azimuth / (45 # 2))%Q) in *. lra. }
  assert (H2 : ~ 0 <= r).
  { intros H. apply Math_round_ge in H. change (inject_Z 0) with 0%Q in H.
    set (q := (azimuth / (45 # 2))%Q) in *. lra. }
  unfold directions_at.
  assert (Hrem : Z.rem r 16 = r) by (apply Z.rem_small_iff; lia).
  rewrite Hrem. destruct (Z.ltb_spec r 0); [reflexivity | lia].
Qed.

Lemma getCardinalDirection_negative_undefined_witness :
  getCardinalDirection (- (90 # 1)) = None.
Proof.
  apply getCardinalDirection_negative_undefined; lra.
Defined.

(** ** Pitch thresholds in terms of beta *)

(** X5.  On either path a sample with [beta] stores a pitch that exceeds 45,
    the compensation threshold, exactly when beta is at least 135.5, and that
    reaches 90 exactly when beta is at least 179.5 (from 45 to 180 the
    subtraction [rawBeta - 90] is exact in double arithmetic as well, so both
    boundaries sit where the exact model puts them).  At the lower clamp the
    subtraction of the source may round, so the boundary is given from both
    sides: every beta up to 0 stores -90, and a stored -90 means beta is below
    0.5. *)
Theorem pitch_thresholds (l : listener) (this : OrientationManager)
    (event : DeviceOrientationEvent) (b : Q) :
  beta event = Some b ->
  exists p,
    pitch (handler l this event) = Some p /\
    (45 < p <-> (271 # 2 <= b)%Q) /\
    (p = 90 <-> (359 # 2 <= b)%Q) /\
    ((b <= 0)%Q -> p = -90) /\
    (p = -90 -> (b < 1 # 2)%Q).
Proof.
  intros Hb. rewrite handler_ingested, Hb, ingested_pitch. cbn [pitch_after].
  set (r := JS.Math_round (b - (90 # 1))%Q).
  exists (clamp_pitch r). split; [reflexivity|].
  rewrite clamp_pitch_max_min.
  pose proof (Math_round_ge 46 (b - (90 # 1))%Q) as H46.
  pose proof (Math_round_ge (-89) (b - (90 # 1))%Q) as H89.
  pose proof (Math_round_ge 90 (b - (90 # 1))%Q) as H90.
  fold r in H46, H89, H90.
  change (inject_Z 46) with (46 # 1)%Q in H46.
  change (inject_Z (-89)) with (- (89 # 1))%Q in H89.
  change (inject_Z 90) with (90 # 1)%Q in H90.
  split; [|split; [|split]].
  - split; intros H.
    + assert (H' : 46 <= r) by lia. apply H46 in H'. lra.
    + assert (H' : 46 <= r) by (apply H46; lra). lia.
  - split; intros H.
    + assert (H' : 90 <= r) by lia. apply H90 in H'. lra.
    + assert (H' : 90 <= r) by (apply H90; lra). lia.
  - intros H.
    assert (H' : ~ -89 <= r).
    { intros H''. apply H89 in H''. lra. }
    lia.
  - intros H.
    assert (H' : ~ -89 <= r) by lia.
    destruct (Qlt_le_dec b (1 # 2)) as [Hlt|Hge]; [exact Hlt|].
    exfalso. apply H'. apply H89. lra.
Qed.

Lemma pitch_thresholds_witness :
  let event := sample (Some (10 # 1)) (Some (271 # 2)) None in
  beta event = Some (271 # 2)%Q /\
  pitch (handler deviceorientationabsolute new_OrientationManager event)
  = Some 46 /\
  azimuth (handler deviceorientationabsolute new_OrientationManager event)
  = Some 190.
Proof.
  cbv zeta. split; [reflexivity|].
  destruct (pitch_thresholds deviceorientationabsolute new_OrientationManager
              (sample (Some (10 # 1)) (Some (271 # 2)) None) (271 # 2)%Q
              eq_refl) as (p & Hp & _).
  split; [|vm_compute; reflexivity].
  rewrite Hp. rewrite <- Hp. vm_compute. reflexivity.
Defined.

(** ** Where the raw azimuth 360 comes from *)

Lemma Math_round_360_iff (x : Q) :
  (x <= 360 # 1)%Q ->
  JS.Math_round x = 360 <-> (719 # 2 <= x)%Q.
Proof.
  intros Hx.
  pose proof (Math_round_ge 360 x) as H360.
  pose proof (Math_round_ge 361 x) as H361.
  change (inject_Z 360) with (360 # 1)%Q in H360.
  change (inject_Z 361) with (361 # 1)%Q in H361.
  split; intros H.
  - assert (H' : 360 <= JS.Math_round x) by lia. apply H360 in H'. lra.
  - assert (H1 : 360 <= JS.Math_round x) by (apply H360; lra).
    assert (H2 : ~ 361 <= JS.Math_round x).
    { intros H'. apply H361 in H'. lra. }
    lia.
Qed.

(** X6.  While the pitch is at most 45 (or still null) a valid sample is
    stored without compensation, and the raw azimuth 360 comes from the last
    half degree before north: on the absolute path the stored azimuth is 360
    exactly when alpha is at least 359.5, with a compass heading exactly when
    the heading is at least 359.5 (these two candidates reach [Math.round]
    untouched), and on the device-relative fallback every alpha up to 0.5 is
    stored as 360. *)
Theorem raw_azimuth_360_when_level (this : OrientationManager)
    (event : DeviceOrientationEvent) :
  Spec.valid_sample event ->
  (forall a b,
      alpha event = Some a -> beta event = Some b ->
      JS.toNumber (pitch (handleOrientationAbsolute this event)) <= 45 ->
      (azimuth (handleOrientationAbsolute this event) = Some 360
       <-> (719 # 2 <= a)%Q)) /\
  (forall h,
      webkitCompassHeading event = Some h ->
      JS.toNumber (pitch (handleOrientation this event)) <= 45 ->
      (azimuth (handleOrientation this event) = Some 360
       <-> (719 # 2 <= h)%Q)) /\
  (forall a,
      webkitCompassHeading event = None -> alpha event = Some a ->
      JS.toNumber (pitch (handleOrientation this event)) <= 45 ->
      (a <= 1 # 2)%Q ->
      azimuth (handleOrientation this event) = Some 360).
Proof.
  intros (Ha & _ & _ & Hh).
  assert (Hlevel : forall p c, JS.toNumber p <= 45 -> compensate p c = c).
  { intros p c Hle. unfold compensate.
    destruct (Z.ltb_spec 45 (JS.toNumber p)); [lia | reflexivity]. }
  split; [|split].
  - intros a b Hea Heb. rewrite handleOrientationAbsolute_ingested.
    unfold candidate_absolute. rewrite Hea, Heb, ingested_pitch.
    cbn [ingested azimuth]. intros Hle. rewrite (Hlevel _ _ Hle).
    rewrite Hea in Ha. cbn [Spec.within] in Ha.
    rewrite <- (Math_round_360_iff a) by lra.
    split; [intros H; inversion H; reflexivity | intros ->; reflexivity].
  - intros h Heh. rewrite handleOrientation_ingested.
    unfold candidate_fallback. rewrite Heh, ingested_pitch.
    cbn [ingested azimuth]. intros Hle. rewrite (Hlevel _ _ Hle).
    rewrite Heh in Hh. cbn [Spec.within] in Hh.
    rewrite <- (Math_round_360_iff h) by lra.
    split; [intros H; inversion H; reflexivity | intros ->; reflexivity].
  - intros a Heh Hea. rewrite handleOrientation_ingested.
    unfold candidate_fallback. rewrite Heh, Hea, ingested_pitch.
    cbn [ingested azimuth]. intros Hle Hhalf. rewrite (Hlevel _ _ Hle).
    rewrite Hea in Ha. cbn [Spec.within] in Ha.
    f_equal. apply Math_round_360_iff; lra.
Qed.

Lemma raw_azimuth_360_when_level_witness :
  let event := sample (Some (719 # 2)) (Some (90 # 1)) None in
  Spec.valid_sample event /\
  JS.toNumber (pitch (handleOrientationAbsolute new_OrientationManager event))
  <= 45 /\
  azimuth (handleOrientationAbsolute new_OrientationManager event) = Some 360.
Proof.
  cbv zeta.
  assert (Hv : Spec.valid_sample (sample (Some (719 # 2)) (Some (90 # 1)) None)).
  { unfold Spec.valid_sample, sample;
      cbn [alpha beta gamma webkitCompassHeading Spec.within].
    repeat split; try exact I; lra. }
  assert (Hle : JS.toNumber
                  (pitch (handleOrientationAbsolute new_OrientationManager
                            (sample (Some (719 # 2)) (Some (90 # 1)) None)))
                <= 45) by (vm_compute; discriminate).
  split; [exact Hv|]. split; [exact Hle|].
  apply (proj1 (raw_azimuth_360_when_level new_OrientationManager
                  (sample (Some (719 # 2)) (Some (90 # 1)) None) Hv)
               (719 # 2)%Q (90 # 1)%Q eq_refl eq_refl Hle).
  lra.
Defined.

(** ** The first version against the final one *)

(** X7.  Started from equal pitch, the two versions of a handler store the same
    pitch for every sample; and for every sample from which the final version
    derives an azimuth candidate while its pitch is at most 45, they store the
    same raw azimuth. *)
Theorem final_version_agrees_with_first_when_level (l : listener)
    (first : OrientationManager_v1) (final : OrientationManager)
    (event : DeviceOrientationEvent) :
  v1_pitch first = pitch final ->
  v1_pitch (v1_handler l first event) = pitch (handler l final event) /\
  (forall c,
      candidate l event = Some c ->
      JS.toNumber (pitch (handler l final event)) <= 45 ->
      v1_azimuth (v1_handler l first event)
      = azimuth (handler l final event)).
Proof.
  intros Hp. rewrite handler_ingested, ingested_pitch.
  assert (Hpitch : v1_pitch (v1_handler l first event)
                   = pitch_after (pitch final) (beta event)).
  { rewrite <- Hp. unfold pitch_after, clamp_pitch.
    destruct l; cbn [v1_handler];
      unfold v1_handleOrientationAbsolute, v1_handleOrientation;
      destruct (alpha event) as [a|], (beta event) as [b|],
        (webkitCompassHeading event) as [h|];
      cbn [v1_pitch]; try reflexivity;
      (destruct (Z.ltb_spec 90 (JS.Math_round (b - (90 # 1))%Q));
       [reflexivity|];
       destruct (Z.ltb_spec (JS.Math_round (b - (90 # 1))%Q) (-90));
       reflexivity). }
  split; [exact Hpitch|].
  intros c Hc Hle. rewrite Hc, ingested_azimuth.
  unfold compensate.
  destruct (Z.ltb_spec 45 (JS.toNumber (pitch_after (pitch final) (beta event))));
    [lia|].
  destruct l; cbn [candidate v1_handler] in *;
    unfold candidate_absolute, candidate_fallback in Hc;
    unfold v1_handleOrientationAbsolute, v1_handleOrientation;
    destruct (alpha event) as [a|], (beta event) as [b|],
      (webkitCompassHeading event) as [h|];
    cbn [v1_azimuth]; inversion Hc; subst; reflexivity.
Qed.

Lemma final_version_agrees_with_first_when_level_witness :
  let first := {| v1_azimuth := None; v1_pitch := None;
                  v1_isTracking := true |} in
  let event := sample (Some (350 # 1)) (Some (120 # 1)) None in
  v1_pitch first = pitch new_OrientationManager /\
  candidate deviceorientation event = Some (10 # 1)%Q /\
  v1_azimuth (v1_handler deviceorientation first event) = Some 10 /\
  azimuth (handler deviceorientation new_OrientationManager event) = Some 10.
Proof.
  cbv zeta. split; [reflexivity|]. split; [reflexivity|].
  destruct (final_version_agrees_with_first_when_level deviceorientation
              {| v1_azimuth := None; v1_pitch := None; v1_isTracking := true |}
              new_OrientationManager
              (sample (Some (350 # 1)) (Some (120 # 1)) None) eq_refl)
    as [_ Haz].
  assert (Hle : JS.toNumber
                  (pitch (handler deviceorientation new_OrientationManager
                            (sample (Some (350 # 1)) (Some (120 # 1)) None)))
                <= 45) by (vm_compute; discriminate).
  split.
  - vm_compute. reflexivity.
  - rewrite <- (Haz (10 # 1)%Q eq_refl Hle). vm_compute. reflexivity.
Defined.

(** ** More on the smoothing step *)

Lemma pushed_nonempty (buffer : list Z) (x : Z) : pushed 5 buffer x <> [].
Proof.
  unfold pushed.
  pose proof (length_app buffer [x]) as Happ. cbn [List.length] in Happ.
  destruct (Z.ltb_spec 5 (Z.of_nat (List.length (buffer ++ [x])))) as [H|H];
    destruct (buffer ++ [x]) as [|v [|w t]]; cbn [tl List.length] in *;
    try discriminate; lia.
Qed.

Lemma pushed_ends_with (buffer : list Z) (x : Z) :
  exists front, pushed 5 buffer x = front ++ [x].
Proof.
  unfold pushed. rewrite length_app. cbn [List.length].
  destruct (Z.ltb_spec 5 (Z.of_nat (List.length buffer + 1))) as [H|H].
  - destruct buffer as [|v t]; [cbn in H; lia|].
    exists t. reflexivity.
  - exists buffer. reflexivity.
Qed.

Lemma pushed_length_exact (buffer : list Z) (x : Z) :
  (List.length buffer <= 5)%nat ->
  List.length (pushed 5 buffer x) = Nat.min 5 (S (List.length buffer)).
Proof.
  intros Hlen. unfold pushed.
  pose proof (length_app buffer [x]) as Happ. cbn [List.length] in Happ.
  destruct (Z.ltb_spec 5 (Z.of_nat (List.length (buffer ++ [x])))) as [H|H].
  - destruct (buffer ++ [x]) as [|v t]; cbn [tl List.length] in *; lia.
  - lia.
Qed.

Lemma existsb_false_Forall (f : Z -> bool) (l : list Z) :
  existsb f l = false -> Forall (fun v => f v = false) l.
Proof.
  induction l as [|v l IH]; cbn [existsb]; intros H.
  - constructor.
  - apply orb_false_iff in H. destruct H as [Hv Hl].
    constructor; [exact Hv | apply IH; exact Hl].
Qed.

Lemma average_plain_between (lo hi : Z) (buffer : list Z) :
  buffer <> [] ->
  Forall (fun v => lo <= v <= hi) buffer ->
  existsb (fun v => v <? 90) buffer && existsb (fun v => 270 <? v) buffer
  = false ->
  lo <= JS.Math_round (average buffer) <= hi.
Proof.
  intros Hne Hall Hw. unfold average. rewrite Hw, sum_fold_right.
  fold (Spec.mean buffer).
  destruct (mean_between lo hi buffer Hne Hall) as [H1 H2].
  apply Math_round_between; assumption.
Qed.

(** X8.  A steady heading is reproduced exactly: when every entry of the buffer
    equals the new raw azimuth, [smoothAzimuth] returns that value. *)
Theorem smoothAzimuth_steady (this : OrientationManager) (x : Z) :
  bufferSize this = 5 ->
  Forall (eq x) (azimuthBuffer this) ->
  fst (smoothAzimuth this x) = x.
Proof.
  intros Hsize Hall. rewrite smoothAzimuth_unfold. cbn [fst]. rewrite Hsize.
  assert (Hp : Forall (eq x) (pushed 5 (azimuthBuffer this) x)).
  { apply pushed_Forall; [exact Hall | reflexivity]. }
  assert (Hb : Forall (fun v => x <= v <= x) (pushed 5 (azimuthBuffer this) x)).
  { eapply Forall_impl; [|exact Hp]. intros v Hv. cbv beta in Hv. lia. }
  assert (Hw : existsb (fun v => v <? 90) (pushed 5 (azimuthBuffer this) x)
               && existsb (fun v => 270 <? v) (pushed 5 (azimuthBuffer this) x)
               = false).
  { destruct (_ && _) eqn:E; [|reflexivity]. exfalso.
    apply andb_true_iff in E. destruct E as [E1 E2].
    apply existsb_exists in E1. apply existsb_exists in E2.
    destruct E1 as (v & Hv & Hlt). destruct E2 as (w & Hw & Hgt).
    rewrite Forall_forall in Hp.
    pose proof (Hp v Hv). pose proof (Hp w Hw).
    apply Z.ltb_lt in Hlt. apply Z.ltb_lt in Hgt. lia. }
  pose proof (average_plain_between x x _ (pushed_nonempty _ x) Hb Hw). lia.
Qed.

Lemma smoothAzimuth_steady_witness :
  let this := snd (feed new_OrientationManager [360; 360; 360]) in
  bufferSize this = 5 /\
  Forall (eq 360) (azimuthBuffer this) /\
  fst (smoothAzimuth this 360) = 360.
Proof.
  cbv zeta.
  assert (H1 : bufferSize (snd (feed new_OrientationManager [360; 360; 360])) = 5)
    by reflexivity.
  assert (H2 : Forall (eq 360)
                 (azimuthBuffer (snd (feed new_OrientationManager [360; 360; 360])))).
  { change (Forall (eq 360) [360; 360; 360]). repeat constructor. }
  split; [exact H1|]. split; [exact H2|].
  exact (smoothAzimuth_steady _ 360 H1 H2).
Defined.

(** X9.  Without a straddle the smoothed azimuth stays between the smallest and
    the largest reading: whenever all entries of the buffer after the push lie
    within lo..hi and they do not straddle the seam, so does the result. *)
Theorem smoothAzimuth_between_readings (this : OrientationManager)
    (x lo hi : Z) :
  bufferSize this = 5 ->
  Forall (fun v => lo <= v <= hi) (azimuthBuffer (snd (smoothAzimuth this x))) ->
  ~ Spec.straddles (azimuthBuffer (snd (smoothAzimuth this x))) ->
  lo <= fst (smoothAzimuth this x) <= hi.
Proof.
  rewrite smoothAzimuth_unfold. cbn [fst snd azimuthBuffer set_azimuthBuffer].
  intros Hsize Hall Hns. rewrite Hsize in *.
  apply average_plain_between.
  - apply pushed_nonempty.
  - exact Hall.
  - destruct (_ && _) eqn:E; [|reflexivity].
    exfalso. apply Hns. apply hasWraparound_straddles. exact E.
Qed.

Lemma smoothAzimuth_between_readings_witness :
  let this := snd (feed new_OrientationManager [100; 120]) in
  bufferSize this = 5 /\
  100 <= fst (smoothAzimuth this 131) <= 131.
Proof.
  cbv zeta. split; [reflexivity|].
  apply smoothAzimuth_between_readings.
  - reflexivity.
  - change (Forall (fun v => 100 <= v <= 131) [100; 120; 131]).
    repeat constructor; lia.
  - intros H. apply hasWraparound_straddles in H. discriminate H.
Defined.

Lemma normalize_northward (v : Z) :
  northward v -> 271 <= Spec.normalize v <= 449.
Proof.
  unfold northward, Spec.normalize. destruct (Z_lt_dec v 180); lia.
Qed.

Lemma average_northward (buffer : list Z) :
  buffer <> [] ->
  Forall northward buffer ->
  0 <= JS.Math_round (average buffer) <= 90 \/
  270 <= JS.Math_round (average buffer) <= 360.
Proof.
  intros Hne Hall.
  destruct (existsb (fun v => v <? 90) buffer
            && existsb (fun v => 270 <? v) buffer) eqn:Hw.
  - unfold average. rewrite Hw. cbv zeta.
    rewrite normalized_map, sum_fold_right.
    fold (Spec.mean (map Spec.normalize buffer)).
    set (m := Spec.mean (map Spec.normalize buffer)).
    assert (Hm : (inject_Z 271 <= m /\ m <= inject_Z 449)%Q).
    { apply mean_between.
      - destruct buffer; [congruence | discriminate].
      - apply Forall_map. eapply Forall_impl; [|exact Hall].
        intros v Hv. apply normalize_northward. exact Hv. }
    change (inject_Z 271) with (271 # 1)%Q in Hm.
    change (inject_Z 449) with (449 # 1)%Q in Hm.
    destruct Hm as [Hm1 Hm2].
    destruct (rem_reduced m) as [[Hy0 Hy1] [k Hk]]; [lra|].
    set (y := JS.rem m (360 # 1)) in *.
    assert (Hk0 : 0 <= k).
    { assert (H : (inject_Z (-1) < inject_Z k)%Q).
      { change (inject_Z (-1)) with (- (1 # 1))%Q. lra. }
      rewrite <- Zlt_Qlt in H. lia. }
    assert (Hk1 : k <= 1).
    { assert (H : (inject_Z k < inject_Z 2)%Q).
      { change (inject_Z 2) with (2 # 1)%Q. lra. }
      rewrite <- Zlt_Qlt in H. lia. }
    assert (Hcases : k = 0 \/ k = 1) by lia.
    destruct Hcases as [-> | ->].
    + right. change (inject_Z 0) with 0%Q in Hk.
      assert (H : 271 <= JS.Math_round y <= 360).
      { apply Math_round_between.
        - change (inject_Z 271) with (271 # 1)%Q. lra.
        - change (inject_Z 360) with (360 # 1)%Q. lra. }
      lia.
    + left. change (inject_Z 1) with 1%Q in Hk.
      assert (H : 0 <= JS.Math_round y <= 89).
      { apply Math_round_between.
        - change (inject_Z 0) with 0%Q. lra.
        - change (inject_Z 89) with (89 # 1)%Q. lra. }
      lia.
  - apply andb_false_iff in Hw as Hcase. destruct Hcase as [Hlow | Hhigh].
    + right.
      assert (H : 271 <= JS.Math_round (average buffer) <= 360).
      { apply average_plain_between; [exact Hne | | exact Hw].
        apply existsb_false_Forall in Hlow.
        rewrite Forall_forall in *. intros v Hv.
        pose proof (Hall v Hv) as Hn. pose proof (Hlow v Hv) as Hl.
        cbv beta in Hl. apply Z.ltb_ge in Hl. unfold northward in Hn. lia. }
      lia.
    + left.
      assert (H : 0 <= JS.Math_round (average buffer) <= 89).
      { apply average_plain_between; [exact Hne | | exact Hw].
        apply existsb_false_Forall in Hhigh.
        rewrite Forall_forall in *. intros v Hv.
        pose proof (Hall v Hv) as Hn. pose proof (Hhigh v Hv) as Hl.
        cbv beta in Hl. apply Z.ltb_ge in Hl. unfold northward in Hn. lia. }
      lia.
Qed.

(** X10.  Readings around north are never averaged to the south: when every entry
    of the buffer after the push is less than 90 degrees away from north
    (below 90 or above 270, within 0..360), the smoothed azimuth is within
    0..90 or within 270..360. *)
Theorem smoothAzimuth_stays_northward (this : OrientationManager) (x : Z) :
  bufferSize this = 5 ->
  Forall northward (azimuthBuffer (snd (smoothAzimuth this x))) ->
  0 <= fst (smoothAzimuth this x) <= 90 \/
  270 <= fst (smoothAzimuth this x) <= 360.
Proof.
  rewrite smoothAzimuth_unfold. cbn [fst snd azimuthBuffer set_azimuthBuffer].
  intros Hsize Hall. rewrite Hsize in *.
  apply average_northward; [apply pushed_nonempty | exact Hall].
Qed.

Lemma smoothAzimuth_stays_northward_witness :
  let this := snd (feed new_OrientationManager [300; 80; 275]) in
  bufferSize this = 5 /\
  fst (smoothAzimuth this 85) = 5 /\
  (0 <= fst (smoothAzimuth this 85) <= 90 \/
   270 <= fst (smoothAzimuth this 85) <= 360).
Proof.
  cbv zeta. split; [reflexivity|]. split; [vm_compute; reflexivity|].
  apply smoothAzimuth_stays_northward.
  - reflexivity.
  - change (Forall northward [300; 80; 275; 85]).
    repeat constructor; unfold northward; lia.
Defined.

(** ** The window over a stream of raw azimuths *)

Lemma last_n_length (n : nat) (l : list Z) :
  List.length (Spec.last_n n l) = Nat.min n (List.length l).
Proof. unfold Spec.last_n. rewrite length_skipn. lia. Qed.

Lemma pushed_last_n_snoc (l : list Z) (x : Z) :
  pushed 5 (Spec.last_n 5 l) x = Spec.last_n 5 (l ++ [x]).
Proof.
  rewrite (pushed_last_n (Spec.last_n 5 l) x)
    by (rewrite last_n_length; unfold Spec.N; lia).
  unfold Spec.last_n, Spec.N.
  rewrite !length_app, length_skipn. cbn [List.length].
  destruct (Nat.le_gt_cases (List.length l) 5) as [Hle|Hgt].
  - replace (List.length l - 5)%nat with 0%nat by lia.
    cbn [skipn]. rewrite Nat.sub_0_r. reflexivity.
  - replace (List.length l - (List.length l - 5) + 1 - 5)%nat with 1%nat by lia.
    rewrite !skipn_app, length_skipn.
    replace (1 - (List.length l - (List.length l - 5)))%nat with 0%nat by lia.
    replace (List.length l + 1 - 5 - List.length l)%nat with 0%nat by lia.
    rewrite skipn_skipn.
    replace (1 + (List.length l - 5))%nat with (List.length l + 1 - 5)%nat by lia.
    reflexivity.
Qed.

Lemma fold_pushed_last_n (buffer raws : list Z) :
  (List.length buffer <= 5)%nat ->
  fold_left (pushed 5) raws buffer = Spec.last_n 5 (buffer ++ raws).
Proof.
  intros Hlen. induction raws as [|x raws IH] using rev_ind.
  - rewrite app_nil_r. cbn [fold_left]. unfold Spec.last_n.
    replace (List.length buffer - 5)%nat with 0%nat by lia. reflexivity.
  - rewrite fold_left_app. cbn [fold_left]. rewrite IH.
    rewrite pushed_last_n_snoc, app_assoc. reflexivity.
Qed.

(** X11.  The window holds the last five raw azimuths and nothing older: once five
    or more have been fed, to a manager in whatever state, the buffer is the
    last five of them and the smoothed azimuth is computed from those alone. *)
Theorem feed_forgets (this : OrientationManager) (raws : list Z) :
  bufferSize this = 5 ->
  (List.length (azimuthBuffer this) <= 5)%nat ->
  (5 <= List.length raws)%nat ->
  azimuthBuffer (snd (feed this raws)) = Spec.last_n 5 raws /\
  fst (feed this raws)
  = Some (JS.Math_round (average (Spec.last_n 5 raws))).
Proof.
  intros Hsize Hlen Hraws.
  assert (Hbuf : azimuthBuffer (snd (feed this raws)) = Spec.last_n 5 raws).
  { rewrite feed_buffer, Hsize, fold_pushed_last_n by exact Hlen.
    unfold Spec.last_n. rewrite length_app, skipn_app.
    rewrite (skipn_all2 (azimuthBuffer this)) by lia.
    cbn [app]. f_equal. lia. }
  split; [exact Hbuf|].
  destruct raws as [|x raws] using rev_ind; [cbn in Hraws; lia|].
  rewrite feed_result, Hbuf. reflexivity.
Qed.

Lemma feed_forgets_witness :
  let this := snd (feed new_OrientationManager [180; 180; 180]) in
  bufferSize this = 5 /\
  (List.length (azimuthBuffer this) <= 5)%nat /\
  (5 <= List.length [10; 20; 30; 40; 50; 60]%Z)%nat /\
  azimuthBuffer (snd (feed this [10; 20; 30; 40; 50; 60]))
  = [20; 30; 40; 50; 60] /\
  fst (feed this [10; 20; 30; 40; 50; 60]) = Some 40.
Proof.
  cbv zeta.
  assert (H1 : bufferSize (snd (feed new_OrientationManager [180; 180; 180])) = 5)
    by reflexivity.
  assert (H2 : (List.length (azimuthBuffer
                  (snd (feed new_OrientationManager [180; 180; 180]%Z))) <= 5)%nat)
    by (vm_compute; lia).
  assert (H3 : (5 <= List.length [10; 20; 30; 40; 50; 60]%Z)%nat)
    by (cbn; lia).
  split; [exact H1|]. split; [exact H2|]. split; [exact H3|].
  destruct (feed_forgets _ [10; 20; 30; 40; 50; 60] H1 H2 H3) as [Hb Hr].
  split.
  - rewrite Hb. reflexivity.
  - rewrite Hr. vm_compute. reflexivity.
Defined.

(** ** What a run leaves in the manager *)

Lemma with_candidate_snoc events l event :
  with_candidate (events ++ [(l, event)])
  = with_candidate events
    ++ match candidate l event with
       | Some _ => [(l, event)]
       | None => []
       end.
Proof.
  unfold with_candidate. rewrite filter_app. cbn [filter fst snd].
  destruct (candidate l event); reflexivity.
Qed.

(** X12.  Only samples that carry an azimuth candidate enter the buffer, one entry
    each, until it is full: after any sequence of events its length is the
    number of such samples, capped at five. *)
Theorem run_buffer_length events :
  List.length (azimuthBuffer (run events))
  = Nat.min 5 (List.length (with_candidate events)).
Proof.
  induction events as [|[l event] events IH] using rev_ind.
  - reflexivity.
  - rewrite run_snoc, dispatch_ingested, with_candidate_snoc, length_app.
    pose proof (run_shape events) as [Hsize Hlen _].
    destruct (candidate l event) as [c|]; cbn [ingested azimuthBuffer List.length].
    + rewrite Hsize, pushed_length_exact by exact Hlen. rewrite IH. lia.
    + rewrite IH. f_equal. lia.
Qed.

(** X13.  After any sequence of events the three heading fields go together: either
    no azimuth was ever stored, and then the smoothed azimuth is null and the
    buffer empty; or the raw azimuth is the newest entry of the buffer and the
    smoothed azimuth is the rounded average of the buffer as it stands. *)
Theorem run_heading_fields_coupled events :
  match azimuth (run events) with
  | None =>
      smoothedAzimuth (run events) = None /\ azimuthBuffer (run events) = []
  | Some raw =>
      (exists front, azimuthBuffer (run events) = front ++ [raw]) /\
      smoothedAzimuth (run events)
      = Some (JS.Math_round (average (azimuthBuffer (run events))))
  end.
Proof.
  induction events as [|[l event] events IH] using rev_ind.
  - split; reflexivity.
  - rewrite run_snoc, dispatch_ingested.
    pose proof (run_shape events) as [Hsize _ _].
    destruct (candidate l event) as [c|];
      cbn [ingested azimuth azimuthBuffer smoothedAzimuth].
    + rewrite Hsize. split; [apply pushed_ends_with | reflexivity].
    + exact IH.
Qed.

(** ** Tracking and repeated registration *)

Lemma constructor_manager :
  manager constructor = new_OrientationManager /\
  registered constructor = [deviceorientationabsolute; deviceorientation].
Proof. split; reflexivity. Qed.

Lemma repeat_snoc {A : Type} (x : A) (n : nat) :
  repeat x (S n) = repeat x n ++ [x].
Proof.
  induction n as [|n IH]; [reflexivity|].
  cbn [repeat app] in *. rewrite <- IH. reflexivity.
Qed.

Lemma fire_pairs (n : nat) (this : OrientationManager) (type : listener)
    (event : DeviceOrientationEvent) :
  fold_left
    (fun this l => if listener_eqb l type then dispatch this l event else this)
    (List.concat (repeat [deviceorientationabsolute; deviceorientation] n)) this
  = Nat.iter n (fun this => dispatch this type event) this.
Proof.
  revert this. induction n as [|n IH]; intros this; [reflexivity|].
  cbn [repeat List.concat]. rewrite fold_left_app, IH, Nat.iter_succ_r.
  f_equal. destruct type; reflexivity.
Qed.

(** X14.  [startTracking] registers nothing while the manager is tracking, but each
    call of [requestPermission] that succeeds (permission granted, or no
    permission API on the platform) lowers the flag first and so registers the
    two listeners once more.  After any sequence of such calls on a
    constructed manager the listeners are registered once for the constructor
    and once per successful request, and one event fired by the platform is
    ingested that many times. *)
Theorem listeners_registered_again (actions : list action) :
  let t := fold_left perform actions constructor in
  let n := S (List.length (regranted actions)) in
  registered t
  = List.concat (repeat [deviceorientationabsolute; deviceorientation] n) /\
  isTracking (manager t) = true /\
  forall type event,
    manager (fire t type event)
    = Nat.iter n (fun this => dispatch this type event) (manager t).
Proof.
  cbv zeta.
  assert (Hinv : registered (fold_left perform actions constructor)
                 = List.concat (repeat [deviceorientationabsolute; deviceorientation]
                             (S (List.length (regranted actions)))) /\
                 isTracking (manager (fold_left perform actions constructor))
                 = true).
  { induction actions as [|a actions [IHr IHt]] using rev_ind.
    - split; reflexivity.
    - rewrite fold_left_app. cbn [fold_left].
      unfold regranted in *. rewrite filter_app, length_app.
      set (t := fold_left perform actions constructor) in *.
      destruct a as [|[| | |]]; cbn [perform requestPermission filter List.length];
        unfold startTracking; cbn [manager registered set_isTracking isTracking];
        rewrite ?IHt; cbn [manager registered isTracking];
        rewrite ?Nat.add_0_r, ?Nat.add_1_r;
        try (split; [assumption | reflexivity]).
      + split; [|reflexivity]. rewrite IHr.
        rewrite (repeat_snoc _ (S _)), concat_app. cbn [List.concat].
        rewrite app_nil_r. reflexivity.
      + split; [|reflexivity]. rewrite IHr.
        rewrite (repeat_snoc _ (S _)), concat_app. cbn [List.concat].
        rewrite app_nil_r. reflexivity. }
  destruct Hinv as [Hr Ht]. split; [exact Hr|]. split; [exact Ht|].
  intros type event. unfold fire. cbn [manager]. rewrite Hr.
  apply fire_pairs.
Qed.

Example one_event_ingested_twice_after_grant :
  let t := perform constructor (RequestPermission Granted) in
  azimuthBuffer
    (manager (fire t deviceorientation (sample (Some (90 # 1)) None None)))
  = [270; 270].
Proof. vm_compute. reflexivity. Qed.

(** ** The page after an event *)

Lemma dispatch_keeps_smoothed this l event :
  smoothedAzimuth this <> None ->
  smoothedAzimuth (dispatch this l event) <> None.
Proof.
  intros H. rewrite dispatch_ingested.
  destruct (candidate l event) as [c|]; cbn [ingested smoothedAzimuth];
    [discriminate | exact H].
Qed.

Lemma run_smoothed_defined events :
  with_candidate events <> [] -> smoothedAzimuth (run events) <> None.
Proof.
  induction events as [|[l event] events IH] using rev_ind;
    [intros H; exfalso; apply H; reflexivity|].
  rewrite with_candidate_snoc, run_snoc. intros H.
  destruct (candidate l event) as [c|] eqn:Hc.
  - rewrite dispatch_ingested, Hc. cbn [ingested smoothedAzimuth]. discriminate.
  - rewrite app_nil_r in H. apply dispatch_keeps_smoothed. apply IH. exact H.
Qed.

Section PageAfterEvent.

Variable MapManager : Type.

(** X4.  Every event ends in [updateMapMarker].  Its listener returns, with
    the manager [dispatch] computes and the map manager untouched, when the
    page has no map manager or the manager has no smoothed azimuth after the
    event; when both exist the call of [updateUserLocationRotation], a method
    the map manager does not have, throws a [TypeError].  So on a page with a
    map manager, once any sample with an azimuth candidate has been ingested,
    every further event throws, whatever it carries. *)
Theorem listener_call_throws_at_marker_call (this : OrientationManager)
    (w : Page.Window MapManager) (l : listener)
    (event : DeviceOrientationEvent) :
  (Page.mapManager MapManager w = None \/
   smoothedAzimuth (dispatch this l event) = None ->
   exists w',
     Page.listener_call MapManager this w l event
     = Page.Normal (dispatch this l event, w') /\
     Page.mapManager MapManager w' = Page.mapManager MapManager w) /\
  (forall m smoothed,
      Page.mapManager MapManager w = Some m ->
      smoothedAzimuth (dispatch this l event) = Some smoothed ->
      Page.listener_call MapManager this w l event = Page.Throw "TypeError") /\
  (forall m events,
      Page.mapManager MapManager w = Some m ->
      with_candidate events <> [] ->
      Page.listener_call MapManager (run events) w l event
      = Page.Throw "TypeError").
Proof.
  split; [|split].
  - intros H. pose proof (listener_call_completion MapManager this w l event) as C.
    destruct H as [H | H]; rewrite H in C.
    + rewrite H. exact C.
    + destruct (Page.mapManager MapManager w); exact C.
  - intros m smoothed Hm Hs.
    pose proof (listener_call_completion MapManager this w l event) as C.
    rewrite Hm, Hs in C. exact C.
  - intros m events Hm Hc.
    pose proof (listener_call_completion MapManager (run events) w l event) as C.
    rewrite Hm in C.
    pose proof (dispatch_keeps_smoothed (run events) l event
                  (run_smoothed_defined events Hc)) as Hs.
    destruct (smoothedAzimuth (dispatch (run events) l event));
      [exact C | congruence].
Qed.

(** X3.  Over valid samples the azimuth line never shows an undefined direction:
    whenever the manager holds an azimuth and the page has the azimuth
    element, [updateDisplay] returns and leaves in it the text
    "Azimuth: <raw>° (<label>)" with one of the sixteen labels of the rose. *)
Theorem updateDisplay_shows_a_direction
    (events : list (listener * DeviceOrientationEvent))
    (w : Page.Window MapManager) (raw : Z) (el : Page.Element) :
  Forall (fun le => Spec.valid_sample (snd le)) events ->
  azimuth (run events) = Some raw ->
  Page.azimuthElement MapManager w = Some el ->
  exists label w',
    In label directions /\
    Page.updateDisplay MapManager (run events) w = Page.Normal w' /\
    Page.azimuthElement MapManager w'
    = Some {| Page.textContent :=
                ("Azimuth: " ++ Page.show_number raw ++ "° ("
                   ++ label ++ ")")%string |}.
Proof.
  intros Hvalid Hraw Hel.
  destruct (run_ranges events Hvalid) as [_ Haz _].
  rewrite Hraw in Haz. cbn [opt_in] in Haz.
  destruct (getCardinalDirection_total (inject_Z raw)) as (label & Hin & Hdir).
  { change 0%Q with (inject_Z 0). rewrite <- Zle_Qle. lia. }
  exists label.
  unfold Page.updateDisplay. cbv zeta. rewrite Hraw, Hel, Hdir.
  cbn [Page.truthy Page.set_textContent Page.bind Page.show_string].
  destruct (pitch (run events)) as [p|],
    (Page.pitchElement MapManager w) as [e2|];
    cbn [Page.truthy Page.set_textContent Page.bind];
    eexists; (split; [exact Hin|]); split; reflexivity.
Qed.

End PageAfterEvent.

Lemma listener_call_throws_at_marker_call_witness :
  let w := {| Page.azimuthElement := None; Page.pitchElement := None;
              Page.mapManager := Some tt |} in
  let events := [(deviceorientationabsolute,
                  sample (Some (10 # 1)) (Some (90 # 1)) None)] in
  Page.mapManager unit w = Some tt /\
  with_candidate events <> [] /\
  Page.listener_call unit (run events) w deviceorientation
    (sample None None None)
  = Page.Throw "TypeError".
Proof.
  cbv zeta. split; [reflexivity|].
  assert (Hc : with_candidate
                 [(deviceorientationabsolute,
                   sample (Some (10 # 1)) (Some (90 # 1)) None)] <> [])
    by (vm_compute; discriminate).
  split; [exact Hc|].
  exact (proj2 (proj2 (listener_call_throws_at_marker_call unit
                         new_OrientationManager
                         {| Page.azimuthElement := None;
                            Page.pitchElement := None;
                            Page.mapManager := Some tt |}
                         deviceorientation (sample None None None)))
               tt _ eq_refl Hc).
Defined.

Lemma updateDisplay_shows_a_direction_witness :
  let events := [(deviceorientation, sample (Some (0 # 1)) None None)] in
  let w := {| Page.azimuthElement := Some {| Page.textContent := EmptyString |};
              Page.pitchElement := None;
              Page.mapManager := @None unit |} in
  Forall (fun le => Spec.valid_sample (snd le)) events /\
  azimuth (run events) = Some 360 /\
  exists label w',
    In label directions /\
    Page.updateDisplay unit (run events) w = Page.Normal w' /\
    Page.azimuthElement unit w'
    = Some {| Page.textContent :=
                ("Azimuth: 360° (" ++ label ++ ")")%string |}.
Proof.
  cbv zeta.
  assert (Hv : Forall (fun le => Spec.valid_sample (snd le))
                 [(deviceorientation, sample (Some (0 # 1)) None None)]).
  { constructor; [|constructor].
    unfold Spec.valid_sample, sample;
      cbn [snd alpha beta gamma webkitCompassHeading Spec.within].
    repeat split; try exact I; lra. }
  split; [exact Hv|]. split; [vm_compute; reflexivity|].
  exact (updateDisplay_shows_a_direction unit
           [(deviceorientation, sample (Some (0 # 1)) None None)]
           {| Page.azimuthElement := Some {| Page.textContent := EmptyString |};
              Page.pitchElement := None;
              Page.mapManager := @None unit |}
           360 {| Page.textContent := EmptyString |} Hv eq_refl eq_refl).
Defined.

(** ** Flags and the latest pitch *)

(** X15.  The handlers never lower a flag and never resize the buffer: after any
    sequence of events the manager is still tracking with a buffer size of 5,
    and [hasReceivedData] is raised exactly when at least one event arrived,
    even one whose fields were all null. *)
Theorem run_flags (events : list (listener * DeviceOrientationEvent)) :
  isTracking (run events) = true /\
  bufferSize (run events) = 5 /\
  (hasReceivedData (run events) = true <-> events <> []).
Proof.
  induction events as [|[l event] events (IHt & IHs & IHd)] using rev_ind.
  - split; [reflexivity|]. split; [reflexivity|].
    split; [discriminate | congruence].
  - rewrite run_snoc, dispatch_ingested.
    destruct (candidate l event) as [c|];
      cbn [ingested isTracking bufferSize hasReceivedData];
      (split; [exact IHt|]); (split; [exact IHs|]);
      (split; [intros _; destruct events; discriminate | reflexivity]).
Qed.

(** X16.  The pitch has no memory beyond the latest [beta]: after any sequence of
    events, from either listener, it is null when no event carried a [beta]
    and otherwise it is round(beta - 90) clamped to -90..90 for the [beta] of
    the latest event that carried one. *)
Theorem run_pitch_is_latest_beta
    (events : list (listener * DeviceOrientationEvent)) :
  pitch (run events)
  = match latest_beta events with
    | Some b => Some (Z.max (-90) (Z.min 90 (JS.Math_round (b - (90 # 1))%Q)))
    | None => None
    end.
Proof.
  induction events as [|[l event] events IH] using rev_ind.
  - reflexivity.
  - rewrite run_snoc, dispatch_ingested, ingested_pitch.
    unfold latest_beta in *. rewrite fold_left_app. cbn [fold_left snd].
    destruct (beta event) as [b|]; cbn [pitch_after].
    + rewrite clamp_pitch_max_min. reflexivity.
    + exact IH.
Qed.
